(** * stockrecomm: the indicator engine, the signal scorer and the watchlist

    A shallow embedding of [STOCK.PY] (class [StockSignalBot] and the two
    watchlist functions) and the properties of it that the design document
    states.

    Modelling conventions.
    - A pandas cell is a [fl]: NaN, an infinity or a number.  Numbers are
      exact rationals ([Q]); signed zeros, overflow and the rounding error of
      binary64 arithmetic are not modelled.  The scorer's own arithmetic is
      exact in binary64 up to the final division: every score delta is a
      multiple of 0.5 and [signal_count * 0.75] is a multiple of 0.75.
    - [round(x, 2)] of a cell is the exact number rounded ([round2]), which
      is the value of the code up to the last digit.  A property of a
      rounded cell is therefore stated up to that digit ([rounds_to]) or by
      its sign, and as an equation only where the rounding is exact.
    - [Close] and [Volume] of a bar are numbers, as the data model has them;
      the indicator columns may hold NaN (the undefined leading values).
    - A Python function is a computation in the error monad [result]:
      [Ok v] when it returns [v], [Raise e] when it raises the exception
      named [e].  Python's [None] is Rocq's [None].
    - A Python [dict] is an association list in insertion order.
    - The [ta] package, which computes the indicator columns, is imported by
      STOCK.PY and is not part of it: the engine takes it as a parameter
      (class [TaLib]).  Where a property needs the value of a column, the
      column is modelled from the design document and marked so.
    - Text is a byte string in UTF-8; a message is the list of the fragments
      of its f-strings, literal text and interpolated values.
    - Yahoo Finance, the Telegram client and the clock are parameters
      (class [World]); a method of the bot is a computation that may raise
      and that keeps what it has sent (type [bot]).  The scheduler ([job],
      [main]) is not modelled. *)

From Stdlib Require Import Ascii String Bool ZArith QArith Qround Qminmax Qabs
  Lqa Lia List.
Import ListNotations.

Open Scope Q_scope.

(** ** Python values and exceptions *)

Definition exn := string.

Inductive result (A : Type) : Type :=
| Ok (a : A)
| Raise (e : exn).
Arguments Ok {A} a.
Arguments Raise {A} e.

Definition bind {A B} (m : result A) (k : A -> result B) : result B :=
  match m with
  | Ok a => k a
  | Raise e => Raise e
  end.

Notation "x <- m ;; k" := (bind m (fun x => k))
  (at level 61, m at next level, right associativity).

Definition IndexError : exn := "IndexError"%string.
Definition KeyError : exn := "KeyError"%string.
Definition ValueError : exn := "ValueError"%string.

(** ** Floating-point cells *)

Inductive fl : Type :=
| NaN
| NInf
| Fin (q : Q)
| PInf.

Definition Qltb (x y : Q) : bool :=
  match (x ?= y)%Q with Lt => true | _ => false end.

Definition Qleb (x y : Q) : bool :=
  match (x ?= y)%Q with Gt => false | _ => true end.

(** Comparisons: every comparison with NaN is false. *)
Definition fl_lt (a b : fl) : bool :=
  match a, b with
  | NaN, _ | _, NaN => false
  | NInf, NInf => false
  | NInf, _ => true
  | Fin _, NInf => false
  | Fin x, Fin y => Qltb x y
  | Fin _, PInf => true
  | PInf, _ => false
  end.

Definition fl_le (a b : fl) : bool :=
  match a, b with
  | NaN, _ | _, NaN => false
  | NInf, _ => true
  | Fin _, NInf => false
  | Fin x, Fin y => Qleb x y
  | Fin _, PInf => true
  | PInf, PInf => true
  | PInf, _ => false
  end.

Definition fl_gt (a b : fl) : bool := fl_lt b a.
Definition fl_ge (a b : fl) : bool := fl_le b a.

(** Sign of a cell: -1, 0 or 1 (0 for NaN and for zero). *)
Definition fl_sgn (a : fl) : Z :=
  match a with
  | NaN => 0
  | NInf => -1
  | Fin q => Z.sgn (Qnum q)
  | PInf => 1
  end.

Definition fl_of_sgn (s : Z) : fl :=
  match s with
  | Z0 => NaN
  | Zpos _ => PInf
  | Zneg _ => NInf
  end.

Definition fl_opp (a : fl) : fl :=
  match a with
  | NaN => NaN
  | NInf => PInf
  | Fin q => Fin (- q)
  | PInf => NInf
  end.

Definition fl_add (a b : fl) : fl :=
  match a, b with
  | NaN, _ | _, NaN => NaN
  | Fin x, Fin y => Fin (x + y)
  | PInf, NInf | NInf, PInf => NaN
  | PInf, _ | _, PInf => PInf
  | NInf, _ | _, NInf => NInf
  end.

Definition fl_sub (a b : fl) : fl := fl_add a (fl_opp b).

Definition fl_mul (a b : fl) : fl :=
  match a, b with
  | NaN, _ | _, NaN => NaN
  | Fin x, Fin y => Fin (x * y)
  | _, _ => fl_of_sgn (fl_sgn a * fl_sgn b)
  end.

(** Division as numpy does it: a zero divisor gives an infinity (or NaN for
    0/0) and raises nothing. *)
Definition fl_div (a b : fl) : fl :=
  match a, b with
  | NaN, _ | _, NaN => NaN
  | Fin x, Fin y =>
      if Qeq_bool y 0 then fl_of_sgn (fl_sgn a) else Fin (x / y)
  | Fin _, _ => Fin 0
  | _, Fin y => fl_of_sgn (fl_sgn a * (if Qltb y 0 then -1 else 1))
  | _, _ => NaN
  end.

(** [round(x, 2)]: to the nearest multiple of 0.01, ties to even, of the
    exact number.  The code rounds the binary64 value, and a value that
    binary64 arithmetic has left next to a tie (0.575 from 23 / 40, 0.625
    from 161 / 160) can go to the other neighbour: the result is that of the
    code up to the last digit.  It is the very result of the code where no
    tie is near: on the literal 0.5 and on the normalised score, a quotient
    of a multiple of 0.5 by a multiple of 0.75. *)
Definition round_half_even (q : Q) : Z :=
  let f := Qfloor q in
  match ((q - inject_Z f) ?= (1 # 2))%Q with
  | Lt => f
  | Gt => (f + 1)%Z
  | Eq => if Z.even f then f else (f + 1)%Z
  end.

Definition round2 (q : Q) : Q := inject_Z (round_half_even (q * 100)) / 100.

Definition fl_round2 (a : fl) : fl :=
  match a with
  | Fin q => Fin (round2 q)
  | _ => a
  end.

(** [int(x)] of a number: truncation towards zero. *)
Definition py_int (q : Q) : Z := Z.quot (Qnum q) (Zpos (Qden q)).

(** [min(a, b)] and [max(a, b)] of Python: the first argument wins a tie. *)
Definition py_min (a b : Q) : Q := if Qltb b a then b else a.
Definition py_max (a b : Q) : Q := if Qltb a b then b else a.

(** ** Dictionaries *)

Inductive pyval : Type :=
| PyStr (s : string)
| PyNum (x : fl)
| PyInt (z : Z)
| PyBool (b : bool).

Section Dict.
Context {V : Type}.

Definition dict := list (string * V).

Fixpoint dict_get (k : string) (d : dict) : option V :=
  match d with
  | [] => None
  | (k', v) :: d' => if String.eqb k k' then Some v else dict_get k d'
  end.

(** [d[k] = v]: an existing key keeps its place, a new key goes last. *)
Fixpoint dict_set (k : string) (v : V) (d : dict) : dict :=
  match d with
  | [] => [(k, v)]
  | (k', v') :: d' =>
      if String.eqb k k' then (k', v) :: d' else (k', v') :: dict_set k v d'
  end.

Definition dict_has (k : string) (d : dict) : bool :=
  match dict_get k d with Some _ => true | None => false end.

Definition dict_keys (d : dict) : list string := map fst d.
End Dict.
Arguments dict V : clear implicits.

(** ** Data model *)

Record Bar : Type := {
  Date : Z;
  Open : Q;
  High : Q;
  Low : Q;
  Close : Q;
  Volume : Q
}.

(** A row of the DataFrame that [calculate_technical_indicators] returns. *)
Record Row : Type := {
  bar :> Bar;
  SMA20 : fl;
  SMA50 : fl;
  SMA200 : fl;
  EMA20 : fl;
  RSI : fl;
  MACD : fl;
  MACD_Signal : fl;
  MACD_Hist : fl;
  BB_Upper : fl;
  BB_Lower : fl;
  BB_Mid : fl;
  BB_Width : fl;
  OBV : fl;
  ADX : fl;
  Stoch_K : fl;
  Stoch_D : fl;
  ATR : fl
}.

(** [df.iloc[i]]: a negative position counts from the end. *)
Definition iloc {A} (rows : list A) (i : Z) : result A :=
  let n := Z.of_nat (length rows) in
  let j := if (i <? 0)%Z then (n + i)%Z else i in
  if ((j <? 0)%Z || (n <=? j)%Z)%bool then Raise IndexError
  else match nth_error rows (Z.to_nat j) with
       | Some r => Ok r
       | None => Raise IndexError
       end.

(** [s.tail(n)]: the last [n] elements. *)
Definition tail {A} (n : nat) (l : list A) : list A :=
  skipn (length l - n) l.

Definition Qsum (l : list Q) : Q := fold_right Qplus 0 l.

(** [s.mean()] of a non-empty column of numbers. *)
Definition mean (l : list Q) : Q := Qsum l / inject_Z (Z.of_nat (length l)).

(** ** The signal scorer: [generate_signals] *)

Open Scope string_scope.

Definition RSI_OVERBOUGHT : Q := 70.
Definition RSI_OVERSOLD : Q := 30.

(** One entry of [signals['indicators']], itself a dict. *)
Definition subsignal := dict pyval.

(** The [signals] dict; its keys are fixed, so it is a record. *)
Record Signal : Type := {
  symbol : string;
  price : Q;
  change_pct : fl;
  indicators : dict subsignal;
  overall_signal : string;
  signal_strength : Q
}.

(** What the body of [generate_signals] threads through the rules. *)
Record scorer : Type := {
  signals : Signal;
  score : Q;
  signal_count : Z
}.

Definition with_indicators (f : dict subsignal -> dict subsignal)
    (s : Signal) : Signal :=
  {| symbol := symbol s;
     price := price s;
     change_pct := change_pct s;
     indicators := f (indicators s);
     overall_signal := overall_signal s;
     signal_strength := signal_strength s |}.

(** [signals['indicators'][k] = e] *)
Definition set_indicator (k : string) (e : subsignal) (st : scorer) : scorer :=
  {| signals := with_indicators (dict_set k e) (signals st);
     score := score st;
     signal_count := signal_count st |}.

(** [signals['indicators'][k]['signal'] = kind] *)
Definition set_indicator_signal (k kind : string) (st : scorer)
    : result scorer :=
  match dict_get k (indicators (signals st)) with
  | Some e => Ok (set_indicator k (dict_set "signal" (PyStr kind) e) st)
  | None => Raise KeyError
  end.

(** [score += d] and [score -= d] *)
Definition add_score (d : Q) (st : scorer) : scorer :=
  {| signals := signals st;
     score := score st + d;
     signal_count := signal_count st |}.

Definition sub_score (d : Q) (st : scorer) : scorer :=
  {| signals := signals st;
     score := score st - d;
     signal_count := signal_count st |}.

(** [signal_count += 1] *)
Definition count_rule (st : scorer) : scorer :=
  {| signals := signals st;
     score := score st;
     signal_count := signal_count st + 1 |}.

(** [{'signal': kind, 'value': v}] *)
Definition signal_value (kind : string) (v : pyval) : subsignal :=
  [("signal", PyStr kind); ("value", v)].

(** Moving Average Signals (lines 153-175): the three blocks differ in the
    column, the key and the weight only. *)
Definition rule_sma (key : string) (sma : Row -> fl) (weight : Q)
    (current : Row) (st : scorer) : scorer :=
  let st :=
    if fl_gt (Fin (Close current)) (sma current)
    then add_score weight
           (set_indicator key
              (signal_value "bullish" (PyNum (fl_round2 (sma current)))) st)
    else sub_score weight
           (set_indicator key
              (signal_value "bearish" (PyNum (fl_round2 (sma current)))) st)
  in count_rule st.

Definition rule_sma20 := rule_sma "sma20" SMA20 (1 # 2).
Definition rule_sma50 := rule_sma "sma50" SMA50 1.
Definition rule_sma200 := rule_sma "sma200" SMA200 (3 # 2).

(** Golden/Death Cross (lines 178-186) *)
Definition rule_cross (previous : option Row) (current : Row) (st : scorer)
    : scorer :=
  match previous with
  | Some previous =>
      if fl_le (SMA50 previous) (SMA200 previous)
         && fl_gt (SMA50 current) (SMA200 current)
      then count_rule (add_score 2
             (set_indicator "golden_cross"
                (signal_value "bullish" (PyBool true)) st))
      else if fl_ge (SMA50 previous) (SMA200 previous)
              && fl_lt (SMA50 current) (SMA200 current)
      then count_rule (sub_score 2
             (set_indicator "death_cross"
                (signal_value "bearish" (PyBool true)) st))
      else st
  | None => st
  end.

(** RSI Signal (lines 189-196) *)
Definition rule_rsi (current : Row) (st : scorer) : result scorer :=
  let st := set_indicator "rsi"
              (signal_value "neutral" (PyNum (fl_round2 (RSI current)))) st in
  st <- (if fl_lt (RSI current) (Fin RSI_OVERSOLD) then
           st <- set_indicator_signal "rsi" "oversold" st ;;
           Ok (add_score (3 # 2) st)
         else if fl_gt (RSI current) (Fin RSI_OVERBOUGHT) then
           st <- set_indicator_signal "rsi" "overbought" st ;;
           Ok (sub_score (3 # 2) st)
         else Ok st) ;;
  Ok (count_rule st).

(** MACD Signal (lines 199-205) *)
Definition rule_macd (current : Row) (st : scorer) : scorer :=
  let st :=
    if fl_gt (MACD current) (MACD_Signal current)
    then add_score 1
           (set_indicator "macd"
              (signal_value "bullish" (PyNum (fl_round2 (MACD current)))) st)
    else sub_score 1
           (set_indicator "macd"
              (signal_value "bearish" (PyNum (fl_round2 (MACD current)))) st)
  in count_rule st.

(** MACD Crossover (lines 208-216) *)
Definition rule_macd_crossover (previous : option Row) (current : Row)
    (st : scorer) : scorer :=
  match previous with
  | Some previous =>
      if fl_le (MACD previous) (MACD_Signal previous)
         && fl_gt (MACD current) (MACD_Signal current)
      then count_rule (add_score (3 # 2)
             (set_indicator "macd_crossover"
                (signal_value "bullish" (PyBool true)) st))
      else if fl_ge (MACD previous) (MACD_Signal previous)
              && fl_lt (MACD current) (MACD_Signal current)
      then count_rule (sub_score (3 # 2)
             (set_indicator "macd_crossover"
                (signal_value "bearish" (PyBool true)) st))
      else st
  | None => st
  end.

(** Bollinger Bands (lines 219-232) *)
Definition bb_position (current : Row) : fl :=
  let width := fl_sub (BB_Upper current) (BB_Lower current) in
  if fl_gt width (Fin 0)
  then fl_div (fl_sub (Fin (Close current)) (BB_Lower current)) width
  else Fin (1 # 2).

Definition rule_bollinger (current : Row) (st : scorer) : result scorer :=
  let bb_position := bb_position current in
  let st := set_indicator "bollinger"
              [("signal", PyStr "neutral");
               ("value", PyNum (fl_round2 bb_position));
               ("width", PyNum (fl_round2 (BB_Width current)))] st in
  st <- (if fl_gt bb_position (Fin (95 # 100)) then
           st <- set_indicator_signal "bollinger" "overbought" st ;;
           Ok (sub_score 1 st)
         else if fl_lt bb_position (Fin (5 # 100)) then
           st <- set_indicator_signal "bollinger" "oversold" st ;;
           Ok (add_score 1 st)
         else Ok st) ;;
  Ok (count_rule st).

(** ADX (Trend Strength) (lines 235-239): no score, not counted *)
Definition rule_adx (current : Row) (st : scorer) : result scorer :=
  let st := set_indicator "adx"
              (signal_value "neutral" (PyNum (fl_round2 (ADX current)))) st in
  if fl_gt (ADX current) (Fin 25) then
    set_indicator_signal "adx" "strong_trend" st
  else if fl_lt (ADX current) (Fin 20) then
    set_indicator_signal "adx" "weak_trend" st
  else Ok st.

(** Stochastic (lines 242-254) *)
Definition rule_stochastic (current : Row) (st : scorer) : result scorer :=
  let st := set_indicator "stochastic"
              [("signal", PyStr "neutral");
               ("k_value", PyNum (fl_round2 (Stoch_K current)));
               ("d_value", PyNum (fl_round2 (Stoch_D current)))] st in
  st <- (if fl_lt (Stoch_K current) (Fin 20) && fl_lt (Stoch_D current) (Fin 20)
         then
           st <- set_indicator_signal "stochastic" "oversold" st ;;
           Ok (add_score 1 st)
         else if fl_gt (Stoch_K current) (Fin 80)
                 && fl_gt (Stoch_D current) (Fin 80)
         then
           st <- set_indicator_signal "stochastic" "overbought" st ;;
           Ok (sub_score 1 st)
         else Ok st) ;;
  Ok (count_rule st).

(** Volume Analysis (lines 257-273) *)
Definition volume_ratio (df : list Row) (current : Row) : Q :=
  let recent_volume_avg := mean (tail 5 (map (fun r : Row => Volume r) df)) in
  if Qltb 0 recent_volume_avg then Volume current / recent_volume_avg else 1.

(** [round(volume_ratio, 2)] (line 264): a float when the average is
    positive; otherwise [volume_ratio] is the int literal [1], which [round]
    leaves an int. *)
Definition rounded_volume_ratio (df : list Row) (current : Row) : pyval :=
  let recent_volume_avg := mean (tail 5 (map (fun r : Row => Volume r) df)) in
  if Qltb 0 recent_volume_avg
  then PyNum (Fin (round2 (Volume current / recent_volume_avg)))
  else PyInt 1.

Definition rule_volume (df : list Row) (current : Row) (st : scorer)
    : result scorer :=
  let volume_ratio := volume_ratio df current in
  let st := set_indicator "volume"
              [("signal", PyStr "neutral");
               ("value", PyInt (py_int (Volume current)));
               ("ratio", rounded_volume_ratio df current)] st in
  st <- (if Qltb (3 # 2) volume_ratio then
           st <- set_indicator_signal "volume" "high" st ;;
           before <- iloc df (-2) ;;
           Ok (if Qltb (Close before) (Close current)
               then add_score (1 # 2) st
               else sub_score (1 # 2) st)
         else Ok st) ;;
  Ok (count_rule st).

(** The rules in the order of the source, from [score = 0] and
    [signal_count = 0]. *)
Definition run_rules (df : list Row) (previous : option Row) (current : Row)
    (signals0 : Signal) : result scorer :=
  let st := {| signals := signals0; score := 0; signal_count := 0 |} in
  let st := rule_sma20 current st in
  let st := rule_sma50 current st in
  let st := rule_sma200 current st in
  let st := rule_cross previous current st in
  st <- rule_rsi current st ;;
  let st := rule_macd current st in
  let st := rule_macd_crossover previous current st in
  st <- rule_bollinger current st ;;
  st <- rule_adx current st ;;
  st <- rule_stochastic current st ;;
  rule_volume df current st.

(** The score before the clamp, and the clamped score (lines 276-280). *)
Definition raw_score (st : scorer) : Q :=
  score st / (inject_Z (signal_count st) * (3 # 4)).

Definition normalized_score (st : scorer) : Q :=
  if (0 <? signal_count st)%Z
  then py_max (py_min (raw_score st) 2) (-2)
  else 0.

(** Convert score to signal (lines 283-292) *)
Definition label (normalized_score : Q) : string :=
  if Qltb (3 # 2) normalized_score then "strong_buy"
  else if Qltb (1 # 2) normalized_score then "buy"
  else if Qltb (- (1 # 2)) normalized_score then "neutral"
  else if Qltb (- (3 # 2)) normalized_score then "sell"
  else "strong_sell".

Definition finish (st : scorer) : Signal :=
  let normalized_score := normalized_score st in
  {| symbol := symbol (signals st);
     price := price (signals st);
     change_pct := change_pct (signals st);
     indicators := indicators (signals st);
     overall_signal := label normalized_score;
     signal_strength := round2 normalized_score |}.

(** [previous = df.iloc[-2] if len(df) > 1 else None] *)
Definition previous_row (df : list Row) : result (option Row) :=
  if (1 <? length df)%nat
  then (r <- iloc df (-2) ;; Ok (Some r))
  else Ok None.

Definition initial_signals (df : list Row) (symbol : string)
    (previous : option Row) (current : Row) : result Signal :=
  change <- match previous with
            | Some _ =>
                before <- iloc df (-2) ;;
                Ok (fl_round2
                      (fl_mul
                         (fl_sub (fl_div (Fin (Close current))
                                         (Fin (Close before)))
                                 (Fin 1))
                         (Fin 100)))
            | None => Ok (Fin 0)
            end ;;
  Ok {| symbol := symbol;
        price := round2 (Close current);
        change_pct := change;
        indicators := [];
        overall_signal := "neutral";
        signal_strength := 0 |}.

(** Lines 136-273: the state after the last rule, before normalisation. *)
Definition scored (df : list Row) (symbol : string) : result scorer :=
  current <- iloc df (-1) ;;
  previous <- previous_row df ;;
  signals0 <- initial_signals df symbol previous current ;;
  run_rules df previous current signals0.

Definition generate_signals (df : option (list Row)) (symbol : string)
    : result (option Signal) :=
  match df with
  | None => Ok None
  | Some [] => Ok None
  | Some rows =>
      st <- scored rows symbol ;;
      Ok (Some (finish st))
  end.

(** *** Reading a Signal *)

(** How many crossover rules left an entry: the golden/death cross rule
    (one entry at most) and the MACD crossover rule. *)
Definition crossovers_fired (m : dict subsignal) : Z :=
  ((if dict_has "golden_cross" m || dict_has "death_cross" m then 1 else 0)
   + (if dict_has "macd_crossover" m then 1 else 0))%Z.

Definition clamp (x lo hi : Q) : Q := Qmax lo (Qmin hi x).

(** ** Bookkeeping for the proofs about the scorer *)

(** The part of [signals] that no rule touches. *)
Definition header (s : Signal) : string * Q * fl :=
  (symbol s, price s, change_pct s).

(** [effect k c w st st']: from [st] to [st'] the entry [k] was assigned,
    [signal_count] grew by [c] and [score] moved by at most [w]. *)
Record effect (k : string) (c : Z) (w : Q) (st st' : scorer) : Prop := {
  eff_indicators :
    exists e,
      indicators (signals st') = dict_set k e (indicators (signals st));
  eff_count : signal_count st' = (signal_count st + c)%Z;
  eff_score : - w <= score st' - score st <= w;
  eff_header : header (signals st') = header (signals st)
}.

(** [acc s0 ks n b st]: the entries of [st] have the keys [ks], in this
    order; [n] rules were counted; the score is within [b] of zero. *)
Definition acc (s0 : Signal) (ks : list string) (n : Z) (b : Q)
    (st : scorer) : Prop :=
  dict_keys (indicators (signals st)) = ks /\
  signal_count st = n /\
  - b <= score st <= b /\
  header (signals st) = header s0.

(** Which keys the two crossover rules may have added. *)
Definition cross_case (previous : option Row) (ck : list string) : Prop :=
  ck = [] \/
  (previous <> None /\ (ck = ["golden_cross"] \/ ck = ["death_cross"])).

Definition macd_case (previous : option Row) (mk : list string) : Prop :=
  mk = [] \/ (previous <> None /\ mk = ["macd_crossover"]).

Definition count_of (ks : list string) : Z := Z.of_nat (length ks).

(** The mapping, the count and the score bound that every run ends with. *)
Definition shape (previous : option Row) (s0 : Signal) (st : scorer) : Prop :=
  exists ck mk,
    cross_case previous ck /\ macd_case previous mk /\
    acc s0
      (["sma20"; "sma50"; "sma200"] ++ ck ++ ["rsi"; "macd"] ++ mk
       ++ ["bollinger"; "adx"; "stochastic"; "volume"])%list
      (8 + count_of ck + count_of mk)%Z
      (8 + 2 * inject_Z (count_of ck) + (3 # 2) * inject_Z (count_of mk))
      st.

Definition entry (k : string) (st : scorer) : option subsignal :=
  dict_get k (indicators (signals st)).

(** ** The indicator engine: [calculate_technical_indicators] *)

Definition SHORT_WINDOW : nat := 20.
Definition MEDIUM_WINDOW : nat := 50.
Definition LONG_WINDOW : nat := 200.
Definition RSI_PERIOD : nat := 14.
Definition MACD_FAST : nat := 12.
Definition MACD_SLOW : nat := 26.
Definition MACD_SIGNAL : nat := 9.

(** A pandas Series of cells, in the order of the frame's rows. *)
Definition column := list fl.

(** The functions of the [ta] package that the engine calls.  The package is
    imported by STOCK.PY and is no part of it, so the engine is a function
    of whatever the package computes; a call may raise. *)
Class TaLib : Type := {
  sma_indicator : list Q -> nat -> result column;
  ema_indicator : list Q -> nat -> result column;
  rsi : list Q -> nat -> result column;
  macd : list Q -> nat -> nat -> nat -> result column;
  macd_signal : list Q -> nat -> nat -> nat -> result column;
  macd_diff : list Q -> nat -> nat -> nat -> result column;
  bollinger_hband : list Q -> nat -> Q -> result column;
  bollinger_lband : list Q -> nat -> Q -> result column;
  bollinger_mavg : list Q -> nat -> Q -> result column;
  on_balance_volume : list Q -> list Q -> result column;
  adx : list Q -> list Q -> list Q -> nat -> result column;
  stoch : list Q -> list Q -> list Q -> nat -> nat -> result column;
  stoch_signal : list Q -> list Q -> list Q -> nat -> nat -> result column;
  average_true_range : list Q -> list Q -> list Q -> nat -> result column
}.

(** [df[name] = col] aligns the column with the rows; a row the column does
    not reach gets NaN. *)
Definition cell (col : column) (i : nat) : fl := nth i col NaN.

Record columns : Type := {
  c_sma20 : column; c_sma50 : column; c_sma200 : column; c_ema20 : column;
  c_rsi : column;
  c_macd : column; c_macd_signal : column; c_macd_hist : column;
  c_bb_upper : column; c_bb_lower : column; c_bb_mid : column;
  c_obv : column; c_adx : column;
  c_stoch_k : column; c_stoch_d : column; c_atr : column
}.

Definition annotate_row (cs : columns) (i : nat) (b : Bar) : Row :=
  {| bar := b;
     SMA20 := cell (c_sma20 cs) i;
     SMA50 := cell (c_sma50 cs) i;
     SMA200 := cell (c_sma200 cs) i;
     EMA20 := cell (c_ema20 cs) i;
     RSI := cell (c_rsi cs) i;
     MACD := cell (c_macd cs) i;
     MACD_Signal := cell (c_macd_signal cs) i;
     MACD_Hist := cell (c_macd_hist cs) i;
     BB_Upper := cell (c_bb_upper cs) i;
     BB_Lower := cell (c_bb_lower cs) i;
     BB_Mid := cell (c_bb_mid cs) i;
     BB_Width := fl_div (fl_sub (cell (c_bb_upper cs) i)
                                (cell (c_bb_lower cs) i))
                        (cell (c_bb_mid cs) i);
     OBV := cell (c_obv cs) i;
     ADX := cell (c_adx cs) i;
     Stoch_K := cell (c_stoch_k cs) i;
     Stoch_D := cell (c_stoch_d cs) i;
     ATR := cell (c_atr cs) i |}.

Fixpoint annotate_from (cs : columns) (i : nat) (data : list Bar)
    : list Row :=
  match data with
  | [] => []
  | b :: data' => annotate_row cs i b :: annotate_from cs (S i) data'
  end.

(** The library calls of the engine, in the order of the source. *)
Definition indicator_columns `{TaLib} (data : list Bar) : result columns :=
  let close := map Close data in
  let high := map High data in
  let low := map Low data in
  let volume := map Volume data in
  sma20 <- sma_indicator close SHORT_WINDOW ;;
  sma50 <- sma_indicator close MEDIUM_WINDOW ;;
  sma200 <- sma_indicator close LONG_WINDOW ;;
  ema20 <- ema_indicator close SHORT_WINDOW ;;
  rsi_ <- rsi close RSI_PERIOD ;;
  macd_ <- macd close MACD_FAST MACD_SLOW MACD_SIGNAL ;;
  macd_signal_ <- macd_signal close MACD_FAST MACD_SLOW MACD_SIGNAL ;;
  macd_hist <- macd_diff close MACD_FAST MACD_SLOW MACD_SIGNAL ;;
  bb_upper <- bollinger_hband close 20 2 ;;
  bb_lower <- bollinger_lband close 20 2 ;;
  bb_mid <- bollinger_mavg close 20 2 ;;
  obv <- on_balance_volume close volume ;;
  adx_ <- adx high low close 14 ;;
  stoch_k <- stoch high low close 14 3 ;;
  stoch_d <- stoch_signal high low close 14 3 ;;
  atr <- average_true_range high low close 14 ;;
  Ok {| c_sma20 := sma20; c_sma50 := sma50; c_sma200 := sma200;
        c_ema20 := ema20; c_rsi := rsi_;
        c_macd := macd_; c_macd_signal := macd_signal_;
        c_macd_hist := macd_hist;
        c_bb_upper := bb_upper; c_bb_lower := bb_lower; c_bb_mid := bb_mid;
        c_obv := obv; c_adx := adx_;
        c_stoch_k := stoch_k; c_stoch_d := stoch_d; c_atr := atr |}.

Definition calculate_technical_indicators `{TaLib} (data : option (list Bar))
    : result (option (list Row)) :=
  match data with
  | None => Ok None
  | Some [] => Ok None
  | Some data =>
      cs <- indicator_columns data ;;
      Ok (Some (annotate_from cs 0 data))
  end.


(** *** What the design document calls a malformed series *)






(** Every call of the engine on [data] returns a column. *)
Definition library_accepts `{TaLib} (data : list Bar) : Prop :=
  exists cs, indicator_columns data = Ok cs.

(** ** The watchlist: [add_stock] and [remove_stock] *)

Definition STOCK_SYMBOLS : list string :=
  ["AAPL"; "MSFT"; "GOOGL"; "AMZN"; "META"; "TSLA"; "NVDA"].

(** [x in l] *)
Definition py_in (x : string) (l : list string) : bool :=
  existsb (String.eqb x) l.

(** [l.remove(x)]: drops the first [x]; ValueError when there is none. *)
Fixpoint list_remove (x : string) (l : list string) : result (list string) :=
  match l with
  | [] => Raise ValueError
  | y :: l' =>
      if String.eqb y x then Ok l'
      else (l'' <- list_remove x l' ;; Ok (y :: l''))
  end.

(** The two functions work on the global list: it goes in and comes out
    next to the returned flag. *)
Definition add_stock (symbol : string) (watchlist : list string)
    : result (bool * list string) :=
  if negb (py_in symbol watchlist)
  then Ok (true, (watchlist ++ [symbol])%list)
  else Ok (false, watchlist).

Definition remove_stock (symbol : string) (watchlist : list string)
    : result (bool * list string) :=
  if py_in symbol watchlist
  then (l <- list_remove symbol watchlist ;; Ok (true, l))
  else Ok (false, watchlist).

(** ** Bollinger bands of the last bar *)






(** ** Data for the examples *)

Definition flat_bar (d : Z) (c v : Q) : Bar :=
  {| Date := d; Open := c; High := c; Low := c; Close := c; Volume := v |}.

(** A row whose indicators are all undefined. *)
Definition undefined_row (b : Bar) : Row :=
  {| bar := b;
     SMA20 := NaN; SMA50 := NaN; SMA200 := NaN; EMA20 := NaN; RSI := NaN;
     MACD := NaN; MACD_Signal := NaN; MACD_Hist := NaN;
     BB_Upper := NaN; BB_Lower := NaN; BB_Mid := NaN; BB_Width := NaN;
     OBV := NaN; ADX := NaN; Stoch_K := NaN; Stoch_D := NaN; ATR := NaN |}.

(** Two rows on which every bullish rule fires, both crossovers included. *)
Definition bull_previous : Row :=
  {| bar := flat_bar 1 90 100;
     SMA20 := Fin 80; SMA50 := Fin 70; SMA200 := Fin 75; EMA20 := Fin 80;
     RSI := Fin 25;
     MACD := Fin (-1); MACD_Signal := Fin 0; MACD_Hist := Fin (-1);
     BB_Upper := Fin 200; BB_Lower := Fin 90; BB_Mid := Fin 145;
     BB_Width := Fin (110 # 145);
     OBV := Fin 0; ADX := Fin 30; Stoch_K := Fin 10; Stoch_D := Fin 10;
     ATR := Fin 1 |}.

Definition bull_current : Row :=
  {| bar := flat_bar 2 100 1000;
     SMA20 := Fin 80; SMA50 := Fin 76; SMA200 := Fin 75; EMA20 := Fin 80;
     RSI := Fin 25;
     MACD := Fin 1; MACD_Signal := Fin 0; MACD_Hist := Fin 1;
     BB_Upper := Fin 200; BB_Lower := Fin 100; BB_Mid := Fin 150;
     BB_Width := Fin (100 # 150);
     OBV := Fin 1000; ADX := Fin 30; Stoch_K := Fin 10; Stoch_D := Fin 10;
     ATR := Fin 1 |}.

Definition unanimous : list Row := [bull_previous; bull_current].

(** One bar of history: nothing is defined yet. *)
Definition first_day : list Row := [undefined_row (flat_bar 1 10 1000)].





(** A library for the examples: it answers every call with a column of
    undefined values, as every lookback indicator is while its window is
    not full. *)
Definition undefined_column (close : list Q) : result column :=
  Ok (map (fun _ => NaN) close).

Definition no_history : TaLib :=
  {| sma_indicator := fun close _ => undefined_column close;
     ema_indicator := fun close _ => undefined_column close;
     rsi := fun close _ => undefined_column close;
     macd := fun close _ _ _ => undefined_column close;
     macd_signal := fun close _ _ _ => undefined_column close;
     macd_diff := fun close _ _ _ => undefined_column close;
     bollinger_hband := fun close _ _ => undefined_column close;
     bollinger_lband := fun close _ _ => undefined_column close;
     bollinger_mavg := fun close _ _ => undefined_column close;
     on_balance_volume := fun close _ => undefined_column close;
     adx := fun _ _ close _ => undefined_column close;
     stoch := fun _ _ close _ _ => undefined_column close;
     stoch_signal := fun _ _ close _ _ => undefined_column close;
     average_true_range := fun _ _ close _ => undefined_column close |}.


(** ** The rules in closed form *)

(** What each rule of [generate_signals] comes to: the entry it writes and
    what it does to the score, as functions of the rows it reads.  The
    proofs below show that the rules, run in order, produce exactly this. *)

(** One assignment [signals['indicators'][k] = e] with the score mapped by
    [f] and the count by [g]. *)
Definition step (k : string) (e : subsignal) (f : Q -> Q) (g : Z -> Z)
    (st : scorer) : scorer :=
  {| signals := with_indicators (dict_set k e) (signals st);
     score := f (score st);
     signal_count := g (signal_count st) |}.

Definition sma_bullish (sma : Row -> fl) (current : Row) : bool :=
  fl_gt (Fin (Close current)) (sma current).

Definition sma_entry (sma : Row -> fl) (current : Row) : subsignal :=
  signal_value (if sma_bullish sma current then "bullish" else "bearish")
               (PyNum (fl_round2 (sma current))).

Definition sma_delta (sma : Row -> fl) (weight : Q) (current : Row) : Q :=
  if sma_bullish sma current then weight else - weight.

Definition golden_fires (previous : option Row) (current : Row) : bool :=
  match previous with
  | Some p => fl_le (SMA50 p) (SMA200 p)
              && fl_gt (SMA50 current) (SMA200 current)
  | None => false
  end.

Definition death_fires (previous : option Row) (current : Row) : bool :=
  match previous with
  | Some p => fl_ge (SMA50 p) (SMA200 p)
              && fl_lt (SMA50 current) (SMA200 current)
  | None => false
  end.

Definition cross_entries (previous : option Row) (current : Row)
    : dict subsignal :=
  if golden_fires previous current
  then [("golden_cross", signal_value "bullish" (PyBool true))]
  else if death_fires previous current
  then [("death_cross", signal_value "bearish" (PyBool true))]
  else [].

Definition cross_delta (previous : option Row) (current : Row) : Q :=
  if golden_fires previous current then 2
  else if death_fires previous current then - 2
  else 0.

Definition rsi_kind (current : Row) : string :=
  if fl_lt (RSI current) (Fin RSI_OVERSOLD) then "oversold"
  else if fl_gt (RSI current) (Fin RSI_OVERBOUGHT) then "overbought"
  else "neutral".

Definition rsi_entry (current : Row) : subsignal :=
  signal_value (rsi_kind current) (PyNum (fl_round2 (RSI current))).

Definition rsi_delta (current : Row) : Q :=
  if fl_lt (RSI current) (Fin RSI_OVERSOLD) then 3 # 2
  else if fl_gt (RSI current) (Fin RSI_OVERBOUGHT) then - (3 # 2)
  else 0.

Definition macd_bullish (current : Row) : bool :=
  fl_gt (MACD current) (MACD_Signal current).

Definition macd_entry (current : Row) : subsignal :=
  signal_value (if macd_bullish current then "bullish" else "bearish")
               (PyNum (fl_round2 (MACD current))).

Definition macd_delta (current : Row) : Q :=
  if macd_bullish current then 1 else - 1.

Definition macd_up_fires (previous : option Row) (current : Row) : bool :=
  match previous with
  | Some p => fl_le (MACD p) (MACD_Signal p)
              && fl_gt (MACD current) (MACD_Signal current)
  | None => false
  end.

Definition macd_down_fires (previous : option Row) (current : Row) : bool :=
  match previous with
  | Some p => fl_ge (MACD p) (MACD_Signal p)
              && fl_lt (MACD current) (MACD_Signal current)
  | None => false
  end.

Definition macd_crossover_entries (previous : option Row) (current : Row)
    : dict subsignal :=
  if macd_up_fires previous current
  then [("macd_crossover", signal_value "bullish" (PyBool true))]
  else if macd_down_fires previous current
  then [("macd_crossover", signal_value "bearish" (PyBool true))]
  else [].

Definition macd_crossover_delta (previous : option Row) (current : Row) : Q :=
  if macd_up_fires previous current then 3 # 2
  else if macd_down_fires previous current then - (3 # 2)
  else 0.

Definition bollinger_kind (current : Row) : string :=
  if fl_gt (bb_position current) (Fin (95 # 100)) then "overbought"
  else if fl_lt (bb_position current) (Fin (5 # 100)) then "oversold"
  else "neutral".

Definition bollinger_entry (current : Row) : subsignal :=
  [("signal", PyStr (bollinger_kind current));
   ("value", PyNum (fl_round2 (bb_position current)));
   ("width", PyNum (fl_round2 (BB_Width current)))].

Definition bollinger_delta (current : Row) : Q :=
  if fl_gt (bb_position current) (Fin (95 # 100)) then - 1
  else if fl_lt (bb_position current) (Fin (5 # 100)) then 1
  else 0.

Definition adx_kind (current : Row) : string :=
  if fl_gt (ADX current) (Fin 25) then "strong_trend"
  else if fl_lt (ADX current) (Fin 20) then "weak_trend"
  else "neutral".

Definition adx_entry (current : Row) : subsignal :=
  signal_value (adx_kind current) (PyNum (fl_round2 (ADX current))).

Definition stochastic_kind (current : Row) : string :=
  if fl_lt (Stoch_K current) (Fin 20) && fl_lt (Stoch_D current) (Fin 20)
  then "oversold"
  else if fl_gt (Stoch_K current) (Fin 80) && fl_gt (Stoch_D current) (Fin 80)
  then "overbought"
  else "neutral".

Definition stochastic_entry (current : Row) : subsignal :=
  [("signal", PyStr (stochastic_kind current));
   ("k_value", PyNum (fl_round2 (Stoch_K current)));
   ("d_value", PyNum (fl_round2 (Stoch_D current)))].

Definition stochastic_delta (current : Row) : Q :=
  if fl_lt (Stoch_K current) (Fin 20) && fl_lt (Stoch_D current) (Fin 20)
  then 1
  else if fl_gt (Stoch_K current) (Fin 80) && fl_gt (Stoch_D current) (Fin 80)
  then - 1
  else 0.

Definition volume_high (df : list Row) (current : Row) : bool :=
  Qltb (3 # 2) (volume_ratio df current).

Definition volume_entry (df : list Row) (current : Row) : subsignal :=
  [("signal", PyStr (if volume_high df current then "high" else "neutral"));
   ("value", PyInt (py_int (Volume current)));
   ("ratio", rounded_volume_ratio df current)].

Definition volume_delta (df : list Row) (previous : option Row)
    (current : Row) : Q :=
  if volume_high df current then
    match previous with
    | Some p => if Qltb (Close p) (Close current) then 1 # 2 else - (1 # 2)
    | None => 0
    end
  else 0.

(** The mapping of the Signal, entry by entry. *)
Definition closed_entries (df : list Row) (previous : option Row)
    (current : Row) : dict subsignal :=
  ([("sma20", sma_entry SMA20 current);
    ("sma50", sma_entry SMA50 current);
    ("sma200", sma_entry SMA200 current)]
   ++ cross_entries previous current
   ++ [("rsi", rsi_entry current); ("macd", macd_entry current)]
   ++ macd_crossover_entries previous current
   ++ [("bollinger", bollinger_entry current);
       ("adx", adx_entry current);
       ("stochastic", stochastic_entry current);
       ("volume", volume_entry df current)])%list.

(** The score, rule by rule; ADX adds nothing. *)
Definition closed_score (df : list Row) (previous : option Row)
    (current : Row) : Q :=
  sma_delta SMA20 (1 # 2) current + sma_delta SMA50 1 current
  + sma_delta SMA200 (3 # 2) current + cross_delta previous current
  + rsi_delta current + macd_delta current
  + macd_crossover_delta previous current + bollinger_delta current
  + stochastic_delta current + volume_delta df previous current.

Definition closed_count (previous : option Row) (current : Row) : Z :=
  (8 + (if golden_fires previous current || death_fires previous current
        then 1 else 0)
     + (if macd_up_fires previous current || macd_down_fires previous current
        then 1 else 0))%Z.

(** [change_pct] of the Signal. *)
Definition closed_change (previous : option Row) (current : Row) : fl :=
  match previous with
  | Some p =>
      fl_round2
        (fl_mul (fl_sub (fl_div (Fin (Close current)) (Fin (Close p)))
                        (Fin 1))
                (Fin 100))
  | None => Fin 0
  end.

(** The last row of a frame and the one before it. *)
Definition last_rows (df : list Row) : option (option Row * Row) :=
  match rev df with
  | [] => None
  | [r] => Some (None, r)
  | r :: p :: _ => Some (Some p, r)
  end.

(** [d.update(kes)]: the assignments of [kes], in order. *)
Definition dict_update {V} (d : dict V) (kes : dict V) : dict V :=
  fold_left (fun d ke => dict_set (fst ke) (snd ke) d) kes d.

(** [does kes d c st st']: from [st] to [st'] the entries [kes] were
    assigned, the score grew by [d] and the count by [c]. *)
Record does (kes : dict subsignal) (d : Q) (c : Z) (st st' : scorer)
    : Prop := {
  does_indicators :
    indicators (signals st') = dict_update (indicators (signals st)) kes;
  does_score : score st' == score st + d;
  does_count : signal_count st' = (signal_count st + c)%Z;
  does_header : header (signals st') = header (signals st)
}.

(** How a frame named by its last rows looks. *)
Definition ends_with (df : list Row) (previous : option Row) (current : Row)
    : Prop :=
  (df = [current] /\ previous = None) \/
  (exists front p, df = (front ++ [p; current])%list /\ previous = Some p).

(** A row with another ADX value. *)
Definition with_adx (a : fl) (r : Row) : Row :=
  {| bar := bar r;
     SMA20 := SMA20 r; SMA50 := SMA50 r; SMA200 := SMA200 r;
     EMA20 := EMA20 r; RSI := RSI r;
     MACD := MACD r; MACD_Signal := MACD_Signal r; MACD_Hist := MACD_Hist r;
     BB_Upper := BB_Upper r; BB_Lower := BB_Lower r; BB_Mid := BB_Mid r;
     BB_Width := BB_Width r;
     OBV := OBV r; ADX := a; Stoch_K := Stoch_K r; Stoch_D := Stoch_D r;
     ATR := ATR r |}.

(** ** The narrative formatter: [format_message] *)

(** Text is a byte string in UTF-8.  A message is kept as the fragments of
    its f-strings: literal text and the values put between them; how Python
    prints a number is not modelled. *)
Inductive piece : Type :=
| Lit (s : string)
| Val (v : pyval).

Definition message := list piece.

Definition AttributeError : exn := "AttributeError".

Definition EMOJI_MAP : dict string :=
  [("strong_buy", "🚀");
   ("buy", "✅");
   ("neutral", "⚖️");
   ("sell", "🔴");
   ("strong_sell", "⛔");
   ("bullish", "📈");
   ("bearish", "📉");
   ("volume_high", "💰");
   ("volume_low", "💸");
   ("volatility_high", "⚡");
   ("volatility_low", "🌊");
   ("uptrend", "↗️");
   ("downtrend", "↘️");
   ("consolidation", "↔️");
   ("breakout", "💥");
   ("support", "🛡️");
   ("resistance", "🧱");
   ("warning", "⚠️");
   ("clock", "🕒");
   ("chart", "📊");
   ("profit", "💹");
   ("loss", "📉");
   ("calendar", "📅");
   ("globe", "🌐")].

(** [EMOJI_MAP[k]] *)
Definition emoji (k : string) : result string :=
  match dict_get k EMOJI_MAP with
  | Some e => Ok e
  | None => Raise KeyError
  end.

(** The newline character. *)
Definition nl : string := String (Ascii.ascii_of_nat 10) EmptyString.

(** [s.upper()] and [s.replace('_', ' ')], exact on ASCII text. *)
Definition upper_ascii (c : Ascii.ascii) : Ascii.ascii :=
  let n := Ascii.nat_of_ascii c in
  if ((97 <=? n) && (n <=? 122))%nat then Ascii.ascii_of_nat (n - 32) else c.

Fixpoint upper (s : string) : string :=
  match s with
  | EmptyString => EmptyString
  | String c s' => String (upper_ascii c) (upper s')
  end.

Fixpoint replace_char (a b : Ascii.ascii) (s : string) : string :=
  match s with
  | EmptyString => EmptyString
  | String c s' =>
      String (if Ascii.eqb c a then b else c) (replace_char a b s')
  end.

(** [v.upper()] of a value read from a dict: only a str has the method. *)
Definition py_upper (v : pyval) : result string :=
  match v with
  | PyStr s => Ok (upper s)
  | _ => Raise AttributeError
  end.

(** [v == 'text'] *)
Definition py_eq_str (v : pyval) (s : string) : bool :=
  match v with
  | PyStr s' => String.eqb s' s
  | _ => false
  end.

(** [s * n]: no copy for [n <= 0]. *)
Definition str_repeat (s : string) (n : Z) : string :=
  String.concat EmptyString (repeat s (Z.to_nat n)).

(** [signals['indicators'][k][f]] *)
Definition field (k f : string) (m : dict subsignal) : result pyval :=
  match dict_get k m with
  | Some e =>
      match dict_get f e with
      | Some v => Ok v
      | None => Raise KeyError
      end
  | None => Raise KeyError
  end.

(** [int((abs(signals['signal_strength']) * 5) // 2)] *)
Definition gauge_filled (signal_strength : Q) : Z :=
  Qfloor (Qabs signal_strength * 5 / 2).

(** The strength gauge of line 316. *)
Definition gauge (signal_strength : Q) : string :=
  str_repeat "▓" (gauge_filled signal_strength)
  ++ str_repeat "░" (10 - gauge_filled signal_strength).

(** The bullish or bearish emoji of a moving-average entry. *)
Definition trend_emoji (signal : pyval) : result string :=
  if py_eq_str signal "bullish" then emoji "bullish" else emoji "bearish".

(** Moving Averages (lines 321-332) *)
Definition section_ma (m : dict subsignal) : result message :=
  let message := [Lit "• MA Trend: "] in
  message <- (if dict_has "sma20" m then
                sma20_signal <- field "sma20" "signal" m ;;
                e <- trend_emoji sma20_signal ;;
                Ok (message ++ [Lit e; Lit " 20-day "])%list
              else Ok message) ;;
  message <- (if dict_has "sma50" m then
                sma50_signal <- field "sma50" "signal" m ;;
                e <- trend_emoji sma50_signal ;;
                Ok (message ++ [Lit e; Lit " 50-day "])%list
              else Ok message) ;;
  message <- (if dict_has "sma200" m then
                sma200_signal <- field "sma200" "signal" m ;;
                e <- trend_emoji sma200_signal ;;
                Ok (message ++ [Lit e; Lit " 200-day"])%list
              else Ok message) ;;
  Ok (message ++ [Lit nl])%list.

(** Special Crossovers (lines 334-338) *)
Definition section_crosses (m : dict subsignal) : result message :=
  golden <- (if dict_has "golden_cross" m then
               breakout <- emoji "breakout" ;;
               bullish <- emoji "bullish" ;;
               Ok [Lit "• "; Lit breakout; Lit " GOLDEN CROSS DETECTED! ";
                   Lit bullish; Lit nl]
             else Ok []) ;;
  death <- (if dict_has "death_cross" m then
              warning <- emoji "warning" ;;
              bearish <- emoji "bearish" ;;
              Ok [Lit "• "; Lit warning; Lit " DEATH CROSS DETECTED! ";
                  Lit bearish; Lit nl]
            else Ok []) ;;
  Ok (golden ++ death)%list.

(** RSI (lines 340-352) *)
Definition section_rsi (m : dict subsignal) : result message :=
  if dict_has "rsi" m then
    rsi_value <- field "rsi" "value" m ;;
    rsi_signal <- field "rsi" "signal" m ;;
    rsi_emoji <- emoji "neutral" ;;
    rsi_emoji <- (if py_eq_str rsi_signal "oversold" then emoji "buy"
                  else if py_eq_str rsi_signal "overbought" then emoji "sell"
                  else Ok rsi_emoji) ;;
    let message := [Lit "• RSI: "; Lit rsi_emoji; Lit " "; Val rsi_value;
                    Lit " "] in
    message <- (if negb (py_eq_str rsi_signal "neutral") then
                  text <- py_upper rsi_signal ;;
                  Ok (message ++ [Lit "("; Lit text; Lit ")"])%list
                else Ok message) ;;
    Ok (message ++ [Lit nl])%list
  else Ok [].

(** MACD (lines 354-358) *)
Definition section_macd (m : dict subsignal) : result message :=
  if dict_has "macd" m then
    macd_signal <- field "macd" "signal" m ;;
    macd_emoji <- trend_emoji macd_signal ;;
    text <- py_upper macd_signal ;;
    Ok [Lit "• MACD: "; Lit macd_emoji; Lit " "; Lit text; Lit nl]
  else Ok [].

(** MACD Crossover (lines 360-364) *)
Definition section_macd_crossover (m : dict subsignal) : result message :=
  if dict_has "macd_crossover" m then
    cross_signal <- field "macd_crossover" "signal" m ;;
    cross_emoji <- trend_emoji cross_signal ;;
    text <- py_upper cross_signal ;;
    Ok [Lit "• "; Lit cross_emoji; Lit " MACD CROSSOVER ("; Lit text;
        Lit ")"; Lit nl]
  else Ok [].

(** The emoji and the text of an overbought/oversold/neutral entry
    (lines 372-380 and 390-398). *)
Definition band_marker (signal : pyval) : result (string * string) :=
  if py_eq_str signal "overbought" then
    e <- emoji "sell" ;; Ok (e, "OVERBOUGHT")
  else if py_eq_str signal "oversold" then
    e <- emoji "buy" ;; Ok (e, "OVERSOLD")
  else
    e <- emoji "neutral" ;; Ok (e, "NEUTRAL").

(** Bollinger Bands (lines 366-382) *)
Definition section_bollinger (m : dict subsignal) : result message :=
  if dict_has "bollinger" m then
    bb_signal <- field "bollinger" "signal" m ;;
    bb_value <- field "bollinger" "value" m ;;
    bb_width <- field "bollinger" "width" m ;;
    marker <- band_marker bb_signal ;;
    Ok [Lit "• Bollinger: "; Lit (fst marker); Lit " "; Lit (snd marker);
        Lit " (pos: "; Val bb_value; Lit ", width: "; Val bb_width; Lit ")";
        Lit nl]
  else Ok [].

(** Stochastic (lines 384-400) *)
Definition section_stochastic (m : dict subsignal) : result message :=
  if dict_has "stochastic" m then
    stoch_signal <- field "stochastic" "signal" m ;;
    stoch_k <- field "stochastic" "k_value" m ;;
    stoch_d <- field "stochastic" "d_value" m ;;
    marker <- band_marker stoch_signal ;;
    Ok [Lit "• Stochastic: "; Lit (fst marker); Lit " "; Lit (snd marker);
        Lit " (K: "; Val stoch_k; Lit ", D: "; Val stoch_d; Lit ")"; Lit nl]
  else Ok [].

(** Volume (lines 402-408) *)
Definition section_volume (m : dict subsignal) : result message :=
  if dict_has "volume" m then
    vol_signal <- field "volume" "signal" m ;;
    vol_ratio <- field "volume" "ratio" m ;;
    vol_emoji <- (if py_eq_str vol_signal "high" then emoji "volume_high"
                  else emoji "volume_low") ;;
    Ok [Lit "• Volume: "; Lit vol_emoji; Lit " "; Val vol_ratio;
        Lit "x average"; Lit nl]
  else Ok [].

(** ADX (Trend Strength) (lines 410-425) *)
Definition section_adx (signal_strength : Q) (m : dict subsignal)
    : result message :=
  if dict_has "adx" m then
    adx_value <- field "adx" "value" m ;;
    adx_signal <- field "adx" "signal" m ;;
    marker <- (if py_eq_str adx_signal "strong_trend" then
                 e <- (if Qltb 0 signal_strength then emoji "bullish"
                       else emoji "bearish") ;;
                 Ok (e, "STRONG TREND")
               else if py_eq_str adx_signal "weak_trend" then
                 e <- emoji "consolidation" ;; Ok (e, "WEAK TREND")
               else
                 e <- emoji "neutral" ;; Ok (e, "MODERATE TREND")) ;;
    Ok [Lit "• ADX: "; Lit (fst marker); Lit " "; Val adx_value; Lit " (";
        Lit (snd marker); Lit ")"; Lit nl]
  else Ok [].

(** The lines before the indicators (lines 303-319); [today] is
    [datetime.now().strftime('%Y-%m-%d')]. *)
Definition section_head (today : string) (signals : Signal) : result message :=
  neutral <- emoji "neutral" ;;
  let signal_emoji :=
    match dict_get (overall_signal signals) EMOJI_MAP with
    | Some e => e
    | None => neutral
    end in
  let change_direction :=
    if fl_gt (change_pct signals) (Fin 0) then "↗️"
    else if fl_lt (change_pct signals) (Fin 0) then "↘️"
    else "➡️" in
  globe <- emoji "globe" ;;
  chart <- emoji "chart" ;;
  calendar <- emoji "calendar" ;;
  let signal_text :=
    upper (replace_char "_"%char " "%char (overall_signal signals)) in
  Ok [Lit globe; Lit " *STOCK SIGNAL: "; Lit (symbol signals); Lit "* ";
      Lit signal_emoji; Lit nl; Lit nl;
      Lit chart; Lit " *Price:* $"; Val (PyNum (Fin (price signals)));
      Lit " "; Lit change_direction; Lit " (";
      Val (PyNum (change_pct signals)); Lit "%)"; Lit nl;
      Lit calendar; Lit " *Date:* "; Lit today; Lit nl; Lit nl;
      Lit "*RECOMMENDATION:* "; Lit signal_emoji; Lit " "; Lit signal_text;
      Lit " "; Lit signal_emoji; Lit nl;
      Lit "*Signal Strength:* "; Lit (gauge (signal_strength signals));
      Lit " ("; Val (PyNum (Fin (signal_strength signals))); Lit ")";
      Lit nl; Lit nl;
      Lit "*KEY INDICATORS:*"; Lit nl].

(** Disclaimer (line 428) *)
Definition section_disclaimer : result message :=
  warning <- emoji "warning" ;;
  Ok [Lit nl; Lit warning;
      Lit " *Disclaimer:* This is algorithmic analysis and should not be considered financial advice. Always do your own research before investing."].

Definition format_message (today : string) (signals : option Signal)
    : result message :=
  match signals with
  | None => Ok [Lit "⚠️ No signals available"]
  | Some signals =>
      let m := indicators signals in
      head <- section_head today signals ;;
      ma <- section_ma m ;;
      crosses <- section_crosses m ;;
      rsi_ <- section_rsi m ;;
      macd_ <- section_macd m ;;
      macd_crossover_ <- section_macd_crossover m ;;
      bollinger <- section_bollinger m ;;
      stochastic <- section_stochastic m ;;
      volume <- section_volume m ;;
      adx_ <- section_adx (signal_strength signals) m ;;
      disclaimer <- section_disclaimer ;;
      Ok (head ++ ma ++ crosses ++ rsi_ ++ macd_ ++ macd_crossover_
          ++ bollinger ++ stochastic ++ volume ++ adx_ ++ disclaimer)%list
  end.

(** ** The bot: [get_stock_data], [send_telegram_message], [process_stock],
    [run_daily_analysis] *)

(** The collaborators of the bot.  [yf_download] is [yf.download]: it may
    raise, and an empty list is an empty frame.  [bot_send_message] is the
    Telegram client; whether its n-th call succeeds is the collaborator's
    business.  [today] is the date the clock gives. *)
Class World : Type := {
  yf_download : string -> string -> string -> result (list Bar);
  bot_send_message : nat -> message -> result unit;
  today : string
}.

(** The calls of [bot.send_message] so far, with what
    [send_telegram_message] returned for each. *)
Definition outbox := list (message * bool).

(** A method of the bot: it may raise, and what it has sent stays sent. *)
Definition bot (A : Type) : Type := outbox -> result A * outbox.

Definition bot_ret {A} (a : A) : bot A := fun log => (Ok a, log).

Definition bot_bind {A B} (m : bot A) (k : A -> bot B) : bot B :=
  fun log =>
    match m log with
    | (Ok a, log') => k a log'
    | (Raise e, log') => (Raise e, log')
    end.

(** A computation that sends nothing. *)
Definition lift {A} (r : result A) : bot A := fun log => (r, log).

Notation "x <~ m ;; k" := (bot_bind m (fun x => k))
  (at level 61, m at next level, right associativity).

(** Lines 72-82: an exception and an empty frame both give None. *)
Definition get_stock_data `{World} (symbol period interval : string)
    : option (list Bar) :=
  match yf_download symbol period interval with
  | Ok [] => None
  | Ok data => Some data
  | Raise _ => None
  end.

(** Lines 432-444: every exception of the client is caught. *)
Definition send_telegram_message `{World} (message : message) : bot bool :=
  fun log =>
    match bot_send_message (length log) message with
    | Ok _ => (Ok true, (log ++ [(message, true)])%list)
    | Raise _ => (Ok false, (log ++ [(message, false)])%list)
    end.

Definition fetch_error (symbol : string) : message :=
  [Lit "⚠️ Error: Could not fetch data for "; Lit symbol].

(** Lines 446-457 *)
Definition process_stock `{World} `{TaLib} (symbol : string) : bot unit :=
  match get_stock_data symbol "1y" "1d" with
  | None =>
      _ <~ send_telegram_message (fetch_error symbol) ;;
      bot_ret tt
  | Some data =>
      data_with_indicators <~ lift (calculate_technical_indicators (Some data)) ;;
      signals <~ lift (generate_signals data_with_indicators symbol) ;;
      message <~ lift (format_message today signals) ;;
      _ <~ send_telegram_message message ;;
      bot_ret tt
  end.

(** The loop of lines 470-472; the sleep between two stocks changes
    nothing here. *)
Fixpoint process_all `{World} `{TaLib} (symbols : list string) : bot unit :=
  match symbols with
  | [] => bot_ret tt
  | symbol :: rest =>
      _ <~ process_stock symbol ;;
      process_all rest
  end.

(** Header message (lines 464-467) *)
Definition header_message `{World} (watchlist : list string)
    : result message :=
  chart <- emoji "chart" ;;
  calendar <- emoji "calendar" ;;
  Ok [Lit chart; Lit " *DAILY STOCK SIGNALS - "; Lit today; Lit "* ";
      Lit calendar; Lit nl; Lit nl;
      Lit "Analyzing "; Val (PyInt (Z.of_nat (length watchlist)));
      Lit " stocks for trading opportunities..."; Lit nl].

(** Summary message (lines 475-478) *)
Definition summary_message `{World} (watchlist : list string)
    : result message :=
  clock <- emoji "clock" ;;
  chart <- emoji "chart" ;;
  Ok [Lit clock; Lit " *ANALYSIS COMPLETE* "; Lit chart; Lit nl; Lit nl;
      Lit "Analyzed "; Val (PyInt (Z.of_nat (length watchlist)));
      Lit " stocks on "; Lit today; Lit "."; Lit nl;
      Lit "Remember to review signals in context of broader market conditions and your investment strategy."].

(** Lines 459-478, on the watchlist as it is when the run starts. *)
Definition run_daily_analysis `{World} `{TaLib} (watchlist : list string)
    : bot unit :=
  header <~ lift (header_message watchlist) ;;
  _ <~ send_telegram_message header ;;
  _ <~ process_all watchlist ;;
  summary <~ lift (summary_message watchlist) ;;
  _ <~ send_telegram_message summary ;;
  bot_ret tt.

(** What the formatter reads of an entry besides its [signal]. *)
Definition needs (k : string) : list string :=
  if String.eqb k "rsi" then ["value"]
  else if String.eqb k "bollinger" then ["value"; "width"]
  else if String.eqb k "stochastic" then ["k_value"; "d_value"]
  else if String.eqb k "volume" then ["ratio"]
  else if String.eqb k "adx" then ["value"]
  else [].

(** An entry with a str under [signal] and a value under each of
    [fields]. *)
Definition entry_ok (fields : list string) (e : subsignal) : bool :=
  match dict_get "signal" e with
  | Some (PyStr _) => forallb (fun f => dict_has f e) fields
  | _ => false
  end.

Definition formattable (m : dict subsignal) : Prop :=
  forall k e, dict_get k m = Some e -> entry_ok (needs k) e = true.

(** [reports W T sym entry]: [entry] is the call that [process_stock] makes
    for [sym]: the fetch-error text, or the formatted Signal of [sym]. *)
Definition reports (W : World) (T : TaLib) (sym : string)
    (entry : message * bool) : Prop :=
  match get_stock_data sym "1y" "1d" with
  | None => fst entry = fetch_error sym
  | Some data =>
      exists s,
        (dwi <- calculate_technical_indicators (Some data) ;;
         generate_signals dwi sym) = Ok (Some s) /\
        symbol s = sym /\
        format_message today (Some s) = Ok (fst entry)
  end.

(** Every series the watchlist downloads is one the library accepts. *)
Definition library_accepts_all (W : World) (T : TaLib)
    (symbols : list string) : Prop :=
  forall symbol data,
    In symbol symbols ->
    get_stock_data symbol "1y" "1d" = Some data -> library_accepts data.

(** A world for the examples: two bars for AAPL, an empty frame for MSFT,
    a failed download for every other symbol; the Telegram client fails
    on every second call. *)
Definition example_world : World :=
  {| yf_download := fun symbol _ _ =>
       if String.eqb symbol "AAPL"
       then Ok [flat_bar 1 10 100; flat_bar 2 11 400]
       else if String.eqb symbol "MSFT" then Ok []
       else Raise "ConnectionError";
     bot_send_message := fun n _ =>
       if Nat.even n then Ok tt else Raise "TimedOut";
     today := "2024-01-02" |}.

(** A library that fails on every call. *)
Definition failing_column (close : list Q) : result column :=
  Raise IndexError.

Definition failing_library : TaLib :=
  {| sma_indicator := fun close _ => failing_column close;
     ema_indicator := fun close _ => failing_column close;
     rsi := fun close _ => failing_column close;
     macd := fun close _ _ _ => failing_column close;
     macd_signal := fun close _ _ _ => failing_column close;
     macd_diff := fun close _ _ _ => failing_column close;
     bollinger_hband := fun close _ _ => failing_column close;
     bollinger_lband := fun close _ _ => failing_column close;
     bollinger_mavg := fun close _ _ => failing_column close;
     on_balance_volume := fun close _ => failing_column close;
     adx := fun _ _ close _ => failing_column close;
     stoch := fun _ _ close _ _ => failing_column close;
     stoch_signal := fun _ _ close _ _ => failing_column close;
     average_true_range := fun _ _ close _ => failing_column close |}.

(** ** Reading the entries of a Signal *)






(** ** Facts about comparisons, dictionaries and rounding *)

Lemma Qltb_lt (x y : Q) : Qltb x y = true <-> x < y.
Proof.
  unfold Qltb. rewrite Qlt_alt.
  destruct (x ?= y)%Q; split; congruence.
Qed.

Lemma Qltb_ge (x y : Q) : Qltb x y = false <-> y <= x.
Proof.
  split.
  - intros E. apply Qnot_lt_le. intros H. apply Qltb_lt in H. congruence.
  - intros H. destruct (Qltb x y) eqn:E; [|reflexivity].
    apply Qltb_lt in E. lra.
Qed.

Lemma py_min_spec (a b : Q) :
  (b < a /\ py_min a b = b) \/ (a <= b /\ py_min a b = a).
Proof.
  unfold py_min. destruct (Qltb b a) eqn:E.
  - left. split; [now apply Qltb_lt | reflexivity].
  - right. split; [now apply Qltb_ge | reflexivity].
Qed.

Lemma py_max_spec (a b : Q) :
  (a < b /\ py_max a b = b) \/ (b <= a /\ py_max a b = a).
Proof.
  unfold py_max. destruct (Qltb a b) eqn:E.
  - left. split; [now apply Qltb_lt | reflexivity].
  - right. split; [now apply Qltb_ge | reflexivity].
Qed.

Section DictFacts.
Context {V : Type}.
Implicit Types (d : dict V) (k : string) (v : V).

Lemma dict_get_set_same d k v : dict_get k (dict_set k v d) = Some v.
Proof.
  induction d as [|[k' v'] d IH]; simpl.
  - now rewrite String.eqb_refl.
  - destruct (String.eqb k k') eqn:E; simpl; rewrite E; auto.
Qed.

Lemma dict_get_set_other d k k' v :
  k' <> k -> dict_get k' (dict_set k v d) = dict_get k' d.
Proof.
  intros Hne. apply String.eqb_neq in Hne.
  induction d as [|[k0 v0] d IH]; simpl.
  - now rewrite Hne.
  - destruct (String.eqb k k0) eqn:E; simpl.
    + apply String.eqb_eq in E. subst k0. now rewrite Hne.
    + now rewrite IH.
Qed.

Lemma dict_set_set d k v v' : dict_set k v (dict_set k v' d) = dict_set k v d.
Proof.
  induction d as [|[k0 v0] d IH]; simpl.
  - now rewrite String.eqb_refl.
  - destruct (String.eqb k k0) eqn:E; simpl; rewrite E; [reflexivity|].
    now rewrite IH.
Qed.

Lemma dict_has_keys d k :
  dict_has k d = existsb (String.eqb k) (dict_keys d).
Proof.
  unfold dict_has.
  induction d as [|[k0 v0] d IH]; simpl; [reflexivity|].
  destruct (String.eqb k k0); [reflexivity | exact IH].
Qed.

Lemma dict_keys_set d k v :
  dict_keys (dict_set k v d) =
  if existsb (String.eqb k) (dict_keys d)
  then dict_keys d else (dict_keys d ++ [k])%list.
Proof.
  induction d as [|[k0 v0] d IH]; simpl; [reflexivity|].
  destruct (String.eqb k k0) eqn:E; simpl; [reflexivity|].
  rewrite IH. now destruct (existsb (String.eqb k) (dict_keys d)).
Qed.
End DictFacts.

Lemma round_half_even_bounds (a b : Z) (q : Q) :
  inject_Z a <= q <= inject_Z b ->
  (a <= round_half_even q <= b)%Z.
Proof.
  intros [Ha Hb]. unfold round_half_even.
  assert (Hfa : (a <= Qfloor q)%Z).
  { rewrite <- (Qfloor_Z a). now apply Qfloor_resp_le. }
  assert (Hfb : (Qfloor q <= b)%Z).
  { rewrite <- (Qfloor_Z b). now apply Qfloor_resp_le. }
  assert (Hstep : Qfloor q = b \/ (Qfloor q + 1 <= b)%Z) by lia.
  destruct ((q - inject_Z (Qfloor q)) ?= (1 # 2))%Q eqn:E.
  - destruct (Z.even (Qfloor q)); [lia|].
    destruct Hstep as [Heq | ?]; [|lia].
    apply Qeq_alt in E. rewrite Heq in E. exfalso. lra.
  - lia.
  - destruct Hstep as [Heq | ?]; [|lia].
    apply Qgt_alt in E. rewrite Heq in E. exfalso. lra.
Qed.


(** ** What one rule does to the scorer state *)

Ltac solve_effect :=
  split; simpl;
  [ eexists; reflexivity | lia || reflexivity | lra | reflexivity ].

Lemma set_indicator_signal_after (k kind : string) (e : subsignal)
    (st : scorer) :
  set_indicator_signal k kind (set_indicator k e st) =
  Ok (set_indicator k (dict_set "signal" (PyStr kind) e) st).
Proof.
  unfold set_indicator_signal. simpl.
  rewrite dict_get_set_same.
  unfold set_indicator, with_indicators. simpl.
  now rewrite dict_set_set.
Qed.

Lemma rule_sma_effect key sma (weight : Q) current st :
  0 <= weight ->
  effect key 1 weight st (rule_sma key sma weight current st).
Proof.
  intros Hw. unfold rule_sma.
  destruct (fl_gt (Fin (Close current)) (sma current)); solve_effect.
Qed.

Lemma rule_cross_effect previous current st :
  rule_cross previous current st = st \/
  (previous <> None /\
   (effect "golden_cross" 1 2 st (rule_cross previous current st) \/
    effect "death_cross" 1 2 st (rule_cross previous current st))).
Proof.
  unfold rule_cross. destruct previous as [p|]; [|now left].
  destruct (fl_le (SMA50 p) (SMA200 p) && fl_gt (SMA50 current) (SMA200 current)).
  - right. split; [discriminate|]. left. solve_effect.
  - destruct (fl_ge (SMA50 p) (SMA200 p)
              && fl_lt (SMA50 current) (SMA200 current)).
    + right. split; [discriminate|]. right. solve_effect.
    + now left.
Qed.

Lemma rule_rsi_effect current st :
  exists st', rule_rsi current st = Ok st' /\ effect "rsi" 1 (3 # 2) st st'.
Proof.
  unfold rule_rsi.
  destruct (fl_lt (RSI current) (Fin RSI_OVERSOLD));
    [|destruct (fl_gt (RSI current) (Fin RSI_OVERBOUGHT))];
    rewrite ?set_indicator_signal_after; simpl;
    eexists; (split; [reflexivity|]); solve_effect.
Qed.

Lemma rule_macd_effect current st :
  effect "macd" 1 1 st (rule_macd current st).
Proof.
  unfold rule_macd.
  destruct (fl_gt (MACD current) (MACD_Signal current)); solve_effect.
Qed.

Lemma rule_macd_crossover_effect previous current st :
  rule_macd_crossover previous current st = st \/
  (previous <> None /\
   effect "macd_crossover" 1 (3 # 2) st
     (rule_macd_crossover previous current st)).
Proof.
  unfold rule_macd_crossover. destruct previous as [p|]; [|now left].
  destruct (fl_le (MACD p) (MACD_Signal p)
            && fl_gt (MACD current) (MACD_Signal current)).
  - right. split; [discriminate|]. solve_effect.
  - destruct (fl_ge (MACD p) (MACD_Signal p)
              && fl_lt (MACD current) (MACD_Signal current)).
    + right. split; [discriminate|]. solve_effect.
    + now left.
Qed.

Lemma rule_bollinger_effect current st :
  exists st',
    rule_bollinger current st = Ok st' /\ effect "bollinger" 1 1 st st'.
Proof.
  unfold rule_bollinger.
  destruct (fl_gt (bb_position current) (Fin (95 # 100)));
    [|destruct (fl_lt (bb_position current) (Fin (5 # 100)))];
    rewrite ?set_indicator_signal_after; simpl;
    eexists; (split; [reflexivity|]); solve_effect.
Qed.

Lemma rule_adx_effect current st :
  exists st', rule_adx current st = Ok st' /\ effect "adx" 0 0 st st'.
Proof.
  unfold rule_adx.
  destruct (fl_gt (ADX current) (Fin 25));
    [|destruct (fl_lt (ADX current) (Fin 20))];
    rewrite ?set_indicator_signal_after; simpl;
    eexists; (split; [reflexivity|]); solve_effect.
Qed.

Lemma rule_stochastic_effect current st :
  exists st',
    rule_stochastic current st = Ok st' /\ effect "stochastic" 1 1 st st'.
Proof.
  unfold rule_stochastic.
  destruct (fl_lt (Stoch_K current) (Fin 20)
            && fl_lt (Stoch_D current) (Fin 20));
    [|destruct (fl_gt (Stoch_K current) (Fin 80)
                && fl_gt (Stoch_D current) (Fin 80))];
    rewrite ?set_indicator_signal_after; simpl;
    eexists; (split; [reflexivity|]); solve_effect.
Qed.

(** *** Positions from the end of the frame *)

Lemma iloc_last {A} (rows : list A) (r : A) :
  iloc (rows ++ [r])%list (-1) = Ok r.
Proof.
  unfold iloc. rewrite length_app. simpl length.
  change (-1 <? 0)%Z with true. cbv iota.
  replace (Z.of_nat (length rows + 1) + -1)%Z with (Z.of_nat (length rows))
    by lia.
  destruct (Z.ltb_spec (Z.of_nat (length rows)) 0); [lia|].
  destruct (Z.leb_spec (Z.of_nat (length rows + 1)) (Z.of_nat (length rows)));
    [lia|].
  simpl. rewrite Nat2Z.id.
  rewrite nth_error_app2 by lia. now rewrite Nat.sub_diag.
Qed.

Lemma iloc_before_last {A} (rows : list A) (p r : A) :
  iloc (rows ++ [p; r])%list (-2) = Ok p.
Proof.
  unfold iloc. rewrite length_app. simpl length.
  change (-2 <? 0)%Z with true. cbv iota.
  replace (Z.of_nat (length rows + 2) + -2)%Z with (Z.of_nat (length rows))
    by lia.
  destruct (Z.ltb_spec (Z.of_nat (length rows)) 0); [lia|].
  destruct (Z.leb_spec (Z.of_nat (length rows + 2)) (Z.of_nat (length rows)));
    [lia|].
  simpl. rewrite Nat2Z.id.
  rewrite nth_error_app2 by lia. now rewrite Nat.sub_diag.
Qed.

(** A non-empty frame is either one row or ends in two rows. *)
Lemma frame_cases {A} (rows : list A) :
  rows <> [] ->
  (exists r, rows = [r]) \/
  (exists front p r, rows = (front ++ [p; r])%list).
Proof.
  intros Hne.
  destruct (exists_last Hne) as [init [r ->]].
  destruct init as [|x init'] using rev_ind.
  - left. now exists r.
  - right. exists init', x, r. now rewrite <- app_assoc.
Qed.

(** *** The volume rule *)

Lemma volume_ratio_single (r : Row) : Qltb (3 # 2) (volume_ratio [r] r) = false.
Proof.
  apply Qltb_ge. unfold volume_ratio, tail, mean, Qsum. simpl.
  destruct (Qltb 0 ((Volume r + 0) / inject_Z 1)) eqn:E; [|lra].
  apply Qltb_lt in E.
  change (inject_Z 1) with 1 in *.
  assert (Hm : (Volume r + 0) / 1 == Volume r) by field.
  rewrite Hm in E. rewrite Hm.
  assert (Volume r / Volume r == 1) as -> by (field; lra).
  lra.
Qed.

Lemma rule_volume_effect df current st :
  df = [current] \/ (exists front p, df = (front ++ [p; current])%list) ->
  exists st',
    rule_volume df current st = Ok st' /\ effect "volume" 1 (1 # 2) st st'.
Proof.
  intros Hdf. unfold rule_volume.
  destruct (Qltb (3 # 2) (volume_ratio df current)) eqn:E.
  - destruct Hdf as [-> | [front [p ->]]].
    + now rewrite volume_ratio_single in E.
    + rewrite set_indicator_signal_after, iloc_before_last. simpl.
      destruct (Qltb (Close p) (Close current));
        eexists; (split; [reflexivity|]); solve_effect.
  - simpl. eexists; (split; [reflexivity|]); solve_effect.
Qed.

(** ** The state after the last rule *)

Lemma acc_step s0 k c w ks n b st st' :
  acc s0 ks n b st ->
  effect k c w st st' ->
  existsb (String.eqb k) ks = false ->
  acc s0 (ks ++ [k])%list (n + c)%Z (b + w) st'.
Proof.
  intros (Hk & Hn & Hb & Hh) [[e He] Hc Hs Hd] Hfresh.
  repeat split.
  - rewrite He, dict_keys_set, Hk, Hfresh. reflexivity.
  - lia.
  - lra.
  - lra.
  - congruence.
Qed.

Lemma acc_weaken s0 ks ks' n n' b b' st :
  acc s0 ks n b st -> ks = ks' -> n = n' -> b <= b' -> acc s0 ks' n' b' st.
Proof.
  intros (Hk & Hn & Hb & Hh) -> -> Hle. repeat split; auto; lra.
Qed.

Ltac fresh_key :=
  unfold cross_case, macd_case in *;
  repeat match goal with
         | H : _ \/ _ |- _ => destruct H
         | H : _ /\ _ |- _ => destruct H
         end;
  subst; reflexivity.

Ltac count_arith :=
  change (inject_Z (count_of [])) with 0;
  change (inject_Z (count_of ["golden_cross"])) with 1;
  change (inject_Z (count_of ["death_cross"])) with 1;
  change (inject_Z (count_of ["macd_crossover"])) with 1;
  lra.

Lemma run_rules_shape df previous current s0 :
  indicators s0 = [] ->
  df = [current] \/ (exists front p, df = (front ++ [p; current])%list) ->
  exists st, run_rules df previous current s0 = Ok st /\ shape previous s0 st.
Proof.
  intros H0 Hdf. unfold run_rules, rule_sma20, rule_sma50, rule_sma200.
  set (st0 := {| signals := s0; score := 0; signal_count := 0 |}).
  assert (A : acc s0 [] 0 0 st0).
  { unfold acc. simpl. rewrite H0. repeat split; lra. }
  eapply acc_step in A;
    [| apply (rule_sma_effect "sma20" SMA20 (1 # 2) current); lra | reflexivity].
  set (st1 := rule_sma "sma20" SMA20 (1 # 2) current st0) in *.
  eapply acc_step in A;
    [| apply (rule_sma_effect "sma50" SMA50 1 current); lra | reflexivity].
  set (st2 := rule_sma "sma50" SMA50 1 current st1) in *.
  eapply acc_step in A;
    [| apply (rule_sma_effect "sma200" SMA200 (3 # 2) current); lra
     | reflexivity].
  set (st3 := rule_sma "sma200" SMA200 (3 # 2) current st2) in *.
  simpl in A.
  assert (A4 : exists ck, cross_case previous ck /\
            acc s0 (["sma20"; "sma50"; "sma200"] ++ ck)%list
              (3 + count_of ck)%Z (3 + 2 * inject_Z (count_of ck))
              (rule_cross previous current st3)).
  { destruct (rule_cross_effect previous current st3) as [-> | [Hp [E | E]]].
    - exists []. split; [now left|].
      eapply acc_weaken; [exact A | reflexivity | reflexivity | count_arith].
    - exists ["golden_cross"]. split; [right; auto|].
      eapply acc_weaken;
        [exact (acc_step _ _ _ _ _ _ _ _ _ A E eq_refl)
        | reflexivity | reflexivity | count_arith].
    - exists ["death_cross"]. split; [right; auto|].
      eapply acc_weaken;
        [exact (acc_step _ _ _ _ _ _ _ _ _ A E eq_refl)
        | reflexivity | reflexivity | count_arith]. }
  clear A. destruct A4 as [ck [Hck A]].
  set (st4 := rule_cross previous current st3) in *.
  destruct (rule_rsi_effect current st4) as [st5 [-> E5]]. simpl bind.
  eapply acc_step in A; [| exact E5 | fresh_key].
  eapply acc_step in A; [| apply (rule_macd_effect current) | fresh_key].
  set (st6 := rule_macd current st5) in *.
  assert (A7 : exists mk, macd_case previous mk /\
            acc s0 (["sma20"; "sma50"; "sma200"] ++ ck ++ ["rsi"; "macd"]
                    ++ mk)%list
              (5 + count_of ck + count_of mk)%Z
              ((11 # 2) + 2 * inject_Z (count_of ck)
               + (3 # 2) * inject_Z (count_of mk))
              (rule_macd_crossover previous current st6)).
  { destruct (rule_macd_crossover_effect previous current st6)
      as [-> | [Hp E]].
    - exists []. split; [now left|].
      eapply acc_weaken;
        [exact A | now rewrite <- !app_assoc | change (count_of []) with 0%Z;
          change (count_of ["macd_crossover"]) with 1%Z; lia
        | count_arith].
    - exists ["macd_crossover"]. split; [right; auto|].
      eapply acc_weaken;
        [apply (acc_step _ _ _ _ _ _ _ _ _ A E); fresh_key
        | now rewrite <- !app_assoc | change (count_of []) with 0%Z;
          change (count_of ["macd_crossover"]) with 1%Z; lia
        | count_arith]. }
  clear A. destruct A7 as [mk [Hmk A]].
  set (st7 := rule_macd_crossover previous current st6) in *.
  destruct (rule_bollinger_effect current st7) as [st8 [-> E8]]. simpl bind.
  eapply acc_step in A; [| exact E8 | fresh_key].
  destruct (rule_adx_effect current st8) as [st9 [-> E9]]. simpl bind.
  eapply acc_step in A; [| exact E9 | fresh_key].
  destruct (rule_stochastic_effect current st9) as [st10 [-> E10]]. simpl bind.
  eapply acc_step in A; [| exact E10 | fresh_key].
  destruct (rule_volume_effect df current st10 Hdf) as [st11 [-> E11]].
  eapply acc_step in A; [| exact E11 | fresh_key].
  exists st11. split; [reflexivity|].
  exists ck, mk. split; [exact Hck|]. split; [exact Hmk|].
  eapply acc_weaken; [exact A | | lia | lra].
  rewrite <- !app_assoc. reflexivity.
Qed.

(** [scored] never raises on a non-empty frame, and ends in a [shape]. *)
Lemma scored_single (r : Row) (sym : string) :
  exists s0 st,
    scored [r] sym = Ok st /\ shape None s0 st /\
    header s0 = (sym, round2 (Close r), Fin 0).
Proof.
  unfold scored.
  change (iloc [r] (-1)) with (Ok r).
  change (previous_row [r]) with (@Ok (option Row) None).
  simpl bind.
  match goal with
  | |- context [run_rules _ _ _ ?s] => set (s0 := s)
  end.
  destruct (run_rules_shape [r] None r s0 eq_refl (or_introl eq_refl))
    as [st [Hrun Hshape]].
  exists s0, st. auto.
Qed.

Lemma scored_many (front : list Row) (p r : Row) (sym : string) :
  exists s0 st,
    scored (front ++ [p; r])%list sym = Ok st /\ shape (Some p) s0 st /\
    symbol s0 = sym /\ price s0 = round2 (Close r).
Proof.
  unfold scored, previous_row.
  assert (Hlast : iloc (front ++ [p; r])%list (-1) = Ok r).
  { replace (front ++ [p; r])%list with ((front ++ [p]) ++ [r])%list
      by now rewrite <- app_assoc.
    apply iloc_last. }
  rewrite Hlast, iloc_before_last.
  assert (Hlen : (1 <? length (front ++ [p; r])%list)%nat = true).
  { apply Nat.ltb_lt. rewrite length_app. simpl. lia. }
  rewrite Hlen. unfold initial_signals.
  rewrite iloc_before_last. simpl bind.
  match goal with
  | |- context [run_rules _ _ _ ?s] => set (s0 := s)
  end.
  destruct (run_rules_shape (front ++ [p; r])%list (Some p) r s0 eq_refl)
    as [st [Hrun Hshape]].
  { right. now exists front, p. }
  exists s0, st. auto.
Qed.

Lemma scored_shape (df : list Row) (sym : string) :
  df <> [] ->
  exists previous s0 st, scored df sym = Ok st /\ shape previous s0 st.
Proof.
  intros Hne.
  destruct (frame_cases df Hne) as [[r ->] | [front [p [r ->]]]].
  - destruct (scored_single r sym) as (s0 & st & H1 & H2 & _).
    now exists None, s0, st.
  - destruct (scored_many front p r sym) as (s0 & st & H1 & H2 & _).
    now exists (Some p), s0, st.
Qed.

Ltac shape_cases H :=
  let ck := fresh "ck" in
  let mk := fresh "mk" in
  let Hck := fresh "Hck" in
  let Hmk := fresh "Hmk" in
  let Hk := fresh "Hk" in
  let Hn := fresh "Hn" in
  let Hb := fresh "Hb" in
  let Hh := fresh "Hh" in
  destruct H as (ck & mk & Hck & Hmk & Hk & Hn & Hb & Hh);
  destruct Hck as [-> | [? [-> | ->]]];
  destruct Hmk as [-> | [? ->]];
  change (count_of []) with 0%Z in Hn, Hb;
  change (count_of ["golden_cross"]) with 1%Z in Hn, Hb;
  change (count_of ["death_cross"]) with 1%Z in Hn, Hb;
  change (count_of ["macd_crossover"]) with 1%Z in Hn, Hb;
  change (inject_Z 0) with 0 in Hb;
  change (inject_Z 1) with 1 in Hb;
  simpl in Hk, Hn.

Lemma shape_count previous s0 st :
  shape previous s0 st ->
  signal_count st = (8 + crossovers_fired (indicators (signals st)))%Z.
Proof.
  intros H. unfold crossovers_fired. rewrite !dict_has_keys.
  shape_cases H; rewrite Hk, Hn; reflexivity.
Qed.

Lemma shape_count_range previous s0 st :
  shape previous s0 st -> (8 <= signal_count st <= 10)%Z.
Proof. intros H. shape_cases H; lia. Qed.

Lemma shape_score previous s0 st :
  shape previous s0 st ->
  - ((23 # 20) * inject_Z (signal_count st)) <= score st
  <= (23 # 20) * inject_Z (signal_count st).
Proof.
  intros H. shape_cases H; rewrite Hn;
    match goal with
    | |- context [inject_Z ?z] =>
        let q := eval compute in (inject_Z z) in change (inject_Z z) with q
    end; lra.
Qed.

Lemma shape_exclusive previous s0 st :
  shape previous s0 st ->
  dict_has "golden_cross" (indicators (signals st)) = false \/
  dict_has "death_cross" (indicators (signals st)) = false.
Proof.
  intros H. rewrite !dict_has_keys.
  shape_cases H; rewrite Hk; (now left) || (now right).
Qed.

Lemma shape_no_previous s0 st :
  shape None s0 st ->
  dict_keys (indicators (signals st)) =
  ["sma20"; "sma50"; "sma200"; "rsi"; "macd"; "bollinger"; "adx";
   "stochastic"; "volume"].
Proof.
  intros H. shape_cases H; congruence.
Qed.

Lemma shape_header previous s0 st :
  shape previous s0 st -> header (signals st) = header s0.
Proof. intros (ck & mk & _ & _ & _ & _ & _ & Hh). exact Hh. Qed.

(** The pre-clamp score of a run is within 23/15 of zero. *)
Lemma shape_raw_score previous s0 st :
  shape previous s0 st -> - (23 # 15) <= raw_score st <= 23 # 15.
Proof.
  intros H.
  pose proof (shape_score _ _ _ H) as [Hl Hu].
  pose proof (shape_count_range _ _ _ H) as [Hc _].
  assert (Hpos : 0 < inject_Z (signal_count st) * (3 # 4)).
  { assert (inject_Z 8 <= inject_Z (signal_count st)) by now rewrite <- Zle_Qle.
    change (inject_Z 8) with 8 in *. lra. }
  unfold raw_score. split.
  - apply Qle_shift_div_l; [exact Hpos | lra].
  - apply Qle_shift_div_r; [exact Hpos | lra].
Qed.

Lemma normalized_raw previous s0 st :
  shape previous s0 st -> normalized_score st = raw_score st.
Proof.
  intros H.
  pose proof (shape_raw_score _ _ _ H) as [Hl Hu].
  pose proof (shape_count_range _ _ _ H) as [Hc _].
  unfold normalized_score.
  destruct (Z.ltb_spec 0 (signal_count st)); [|lia].
  destruct (py_min_spec (raw_score st) 2) as [[? _] | [_ ->]]; [lra|].
  destruct (py_max_spec (raw_score st) (-2)) as [[? _] | [_ ->]]; [lra|].
  reflexivity.
Qed.

(** ** Entries survive the later rules *)

Lemma effect_frame k c w st st' :
  effect k c w st st' ->
  forall k', k' <> k -> entry k' st' = entry k' st.
Proof.
  intros [[e He] _ _ _] k' Hne. unfold entry.
  rewrite He. now apply dict_get_set_other.
Qed.

Lemma rule_cross_frame previous current st :
  forall k', k' <> "golden_cross" -> k' <> "death_cross" ->
    entry k' (rule_cross previous current st) = entry k' st.
Proof.
  intros k' Hg Hd.
  destruct (rule_cross_effect previous current st) as [-> | [_ [E | E]]];
    [reflexivity | |]; now apply (effect_frame _ _ _ _ _ E).
Qed.

Lemma rule_macd_crossover_frame previous current st :
  forall k', k' <> "macd_crossover" ->
    entry k' (rule_macd_crossover previous current st) = entry k' st.
Proof.
  intros k' Hm.
  destruct (rule_macd_crossover_effect previous current st) as [-> | [_ E]];
    [reflexivity|]; now apply (effect_frame _ _ _ _ _ E).
Qed.

Lemma rule_volume_ok_effect df current st st' :
  rule_volume df current st = Ok st' -> effect "volume" 1 (1 # 2) st st'.
Proof.
  unfold rule_volume.
  destruct (Qltb (3 # 2) (volume_ratio df current)).
  - rewrite set_indicator_signal_after. simpl.
    destruct (iloc df (-2)) as [p|]; simpl; [|discriminate].
    destruct (Qltb (Close p) (Close current));
      intros [= <-]; solve_effect.
  - simpl. intros [= <-]. solve_effect.
Qed.

Lemma run_rules_entries df previous current s0 st :
  run_rules df previous current s0 = Ok st ->
  let st0 := {| signals := s0; score := 0; signal_count := 0 |} in
  let st1 := rule_sma20 current st0 in
  let st2 := rule_sma50 current st1 in
  let st3 := rule_sma200 current st2 in
  let st4 := rule_cross previous current st3 in
  exists st5 st8,
    rule_rsi current st4 = Ok st5 /\
    rule_bollinger current
      (rule_macd_crossover previous current (rule_macd current st5)) = Ok st8 /\
    entry "sma20" st = entry "sma20" st1 /\
    entry "sma50" st = entry "sma50" st2 /\
    entry "sma200" st = entry "sma200" st3 /\
    entry "rsi" st = entry "rsi" st5 /\
    entry "bollinger" st = entry "bollinger" st8.
Proof.
  intros Hrun st0 st1 st2 st3 st4. unfold run_rules in Hrun.
  fold st0 st1 st2 st3 st4 in Hrun.
  destruct (rule_rsi_effect current st4) as [st5 [R5 E5]].
  rewrite R5 in Hrun. simpl bind in Hrun.
  set (st6 := rule_macd current st5) in *.
  set (st7 := rule_macd_crossover previous current st6) in *.
  destruct (rule_bollinger_effect current st7) as [st8 [R8 E8]].
  rewrite R8 in Hrun. simpl bind in Hrun.
  destruct (rule_adx_effect current st8) as [st9 [R9 E9]].
  rewrite R9 in Hrun. simpl bind in Hrun.
  destruct (rule_stochastic_effect current st9) as [st10 [R10 E10]].
  rewrite R10 in Hrun. simpl bind in Hrun.
  pose proof (effect_frame _ _ _ _ _ (rule_volume_ok_effect _ _ _ _ Hrun))
    as F11.
  pose proof (effect_frame _ _ _ _ _ E10) as F10.
  pose proof (effect_frame _ _ _ _ _ E9) as F9.
  pose proof (effect_frame _ _ _ _ _ E8) as F8.
  pose proof (rule_macd_crossover_frame previous current st6) as F7.
  fold st7 in F7.
  pose proof (effect_frame _ _ _ _ _ (rule_macd_effect current st5)) as F6.
  fold st6 in F6.
  pose proof (effect_frame _ _ _ _ _ E5) as F5.
  pose proof (rule_cross_frame previous current st3) as F4. fold st4 in F4.
  assert (F3 : forall k', k' <> "sma200" -> entry k' st3 = entry k' st2).
  { apply (effect_frame "sma200" 1 (3 # 2)).
    apply rule_sma_effect. lra. }
  assert (F2 : forall k', k' <> "sma50" -> entry k' st2 = entry k' st1).
  { apply (effect_frame "sma50" 1 1). apply rule_sma_effect. lra. }
  exists st5, st8. split; [exact R5|]. split; [exact R8|].
  repeat split.
  - rewrite F11, F10, F9, F8, F7, F6, F5, F4, F3, F2 by discriminate.
    reflexivity.
  - rewrite F11, F10, F9, F8, F7, F6, F5, F4, F3 by discriminate.
    reflexivity.
  - rewrite F11, F10, F9, F8, F7, F6, F5, F4 by discriminate. reflexivity.
  - rewrite F11, F10, F9, F8, F7, F6 by discriminate. reflexivity.
  - rewrite F11, F10, F9 by discriminate. reflexivity.
Qed.

(** ** [generate_signals] as a whole *)

Lemma scored_ok_shape (df : list Row) (sym : string) (st : scorer) :
  scored df sym = Ok st -> df <> [] /\ exists previous s0, shape previous s0 st.
Proof.
  intros H. destruct df as [|r df]; [discriminate|].
  split; [discriminate|].
  destruct (scored_shape (r :: df) sym) as (previous & s0 & st' & H1 & H2);
    [discriminate|].
  rewrite H1 in H. injection H as <-. now exists previous, s0.
Qed.

Lemma generate_signals_scored rows sym st :
  scored rows sym = Ok st ->
  generate_signals (Some rows) sym = Ok (Some (finish st)).
Proof.
  intros H. destruct rows as [|r rows]; [discriminate|].
  simpl. now rewrite H.
Qed.

Lemma normalized_score_range (st : scorer) : -2 <= normalized_score st <= 2.
Proof.
  unfold normalized_score.
  destruct (0 <? signal_count st)%Z; [|lra].
  destruct (py_min_spec (raw_score st) 2) as [[? ->] | [? ->]];
    match goal with
    | |- context [py_max ?a ?b] =>
        destruct (py_max_spec a b) as [[? ->] | [? ->]]
    end; lra.
Qed.

Lemma label_cases (n : Q) :
  (3 # 2 < n -> label n = "strong_buy") /\
  (1 # 2 < n <= 3 # 2 -> label n = "buy") /\
  (- (1 # 2) < n <= 1 # 2 -> label n = "neutral") /\
  (- (3 # 2) < n <= - (1 # 2) -> label n = "sell") /\
  (n <= - (3 # 2) -> label n = "strong_sell").
Proof.
  unfold label.
  destruct (Qltb (3 # 2) n) eqn:E1;
    [apply Qltb_lt in E1 | apply Qltb_ge in E1];
  (destruct (Qltb (1 # 2) n) eqn:E2;
    [apply Qltb_lt in E2 | apply Qltb_ge in E2]);
  (destruct (Qltb (- (1 # 2)) n) eqn:E3;
    [apply Qltb_lt in E3 | apply Qltb_ge in E3]);
  (destruct (Qltb (- (3 # 2)) n) eqn:E4;
    [apply Qltb_lt in E4 | apply Qltb_ge in E4]);
  repeat split; intros; try reflexivity; exfalso; lra.
Qed.

Lemma clamp_inside (x : Q) : -2 <= x <= 2 -> clamp x (-2) 2 == x.
Proof.
  intros [Hl Hu]. unfold clamp.
  rewrite (Q.min_r 2 x) by exact Hu.
  now rewrite Q.max_r.
Qed.

(** * Properties from the design document *)

(** ** C1: normalisation *)

(** C1, as the code has it: on every non-empty annotated series the scorer
    returns a Signal whose normalized score is
    clamp(score / (count × 0.75), −2, 2), where count is 8 (the rules that
    always count: the three moving averages, RSI, MACD level, Bollinger,
    stochastic and volume) plus 1 for each crossover rule that left an
    entry; so count is 8, 9 or 10. *)
Theorem normalized_score_formula (df : list Row) (sym : string) :
  df <> [] ->
  exists st s,
    scored df sym = Ok st /\
    generate_signals (Some df) sym = Ok (Some s) /\
    signal_strength s = round2 (normalized_score st) /\
    let count := (8 + crossovers_fired (indicators s))%Z in
    signal_count st = count /\
    (8 <= count <= 10)%Z /\
    normalized_score st ==
      clamp (score st / (inject_Z count * (3 # 4))) (-2) 2.
Proof.
  intros Hne.
  destruct (scored_shape df sym Hne) as (previous & s0 & st & Hs & Hshape).
  exists st, (finish st).
  split; [exact Hs|].
  split; [now apply generate_signals_scored|].
  split; [reflexivity|].
  cbv zeta. simpl indicators.
  pose proof (shape_count _ _ _ Hshape) as Hc.
  pose proof (shape_count_range _ _ _ Hshape) as Hr.
  split; [exact Hc|]. split; [now rewrite <- Hc|].
  rewrite <- Hc. fold (raw_score st).
  rewrite (normalized_raw _ _ _ Hshape).
  symmetry. apply clamp_inside.
  pose proof (shape_raw_score _ _ _ Hshape). lra.
Qed.

Lemma normalized_score_formula_witness :
  first_day <> [] /\
  exists st s,
    scored first_day "AAPL" = Ok st /\
    generate_signals (Some first_day) "AAPL" = Ok (Some s) /\
    signal_strength s = round2 (normalized_score st) /\
    let count := (8 + crossovers_fired (indicators s))%Z in
    signal_count st = count /\
    (8 <= count <= 10)%Z /\
    normalized_score st ==
      clamp (score st / (inject_Z count * (3 # 4))) (-2) 2.
Proof.
  split; [discriminate|].
  apply (normalized_score_formula first_day "AAPL"). discriminate.
Defined.

(** C1 as stated fails: with one bar of history no crossover rule fires,
    eight rules are counted and the normalized score is −4/6 = −2/3, not the
    −4/6.75 that a count of 9 gives. *)
Lemma normalized_score_count_is_not_nine :
  exists st s,
    scored first_day "AAPL" = Ok st /\
    generate_signals (Some first_day) "AAPL" = Ok (Some s) /\
    crossovers_fired (indicators s) = 0%Z /\
    signal_count st = 8%Z /\
    normalized_score st == - (2 # 3) /\
    ~ normalized_score st ==
        clamp (score st
               / (inject_Z (9 + crossovers_fired (indicators s)) * (3 # 4)))
              (-2) 2.
Proof.
  destruct (scored first_day "AAPL") as [st|] eqn:E;
    [|vm_compute in E; discriminate].
  exists st, (finish st).
  vm_compute in E. injection E as <-.
  split; [reflexivity|]. split; [reflexivity|].
  split; [reflexivity|]. split; [reflexivity|].
  split; [reflexivity|].
  vm_compute. discriminate.
Qed.

(** ** C3: the clamp *)

(** C3, as the code has it: for every non-empty annotated series the scorer
    reaches the normalisation, and the pre-clamp score score / (count × 0.75)
    lies within [−23/15, 23/15], inside [−2, 2]; the clamp never changes the
    value. *)
Theorem clamp_never_engaged (df : list Row) (sym : string) :
  df <> [] ->
  exists st,
    scored df sym = Ok st /\
    - (23 # 15) <= raw_score st <= 23 # 15 /\
    normalized_score st = raw_score st.
Proof.
  intros Hne.
  destruct (scored_shape df sym Hne) as (previous & s0 & st & Hs & Hshape).
  exists st. split; [exact Hs|].
  split; [now apply (shape_raw_score previous s0) |
          now apply (normalized_raw previous s0)].
Qed.

(** The bound is met by two bars on which every rule votes to buy. *)
Lemma clamp_never_engaged_witness :
  unanimous <> [] /\
  exists st,
    scored unanimous "AAPL" = Ok st /\
    raw_score st == 23 # 15 /\
    - (23 # 15) <= raw_score st <= 23 # 15 /\
    normalized_score st = raw_score st.
Proof.
  split; [discriminate|].
  destruct (clamp_never_engaged unanimous "AAPL") as (st & Hs & Hb & Hn);
    [discriminate|].
  exists st. split; [exact Hs|].
  split; [vm_compute in Hs; injection Hs as <-; reflexivity|].
  split; [exact Hb | exact Hn].
Defined.

(** C3 as stated fails: no annotated series takes the pre-clamp score
    outside [−2, 2]. *)
Lemma no_series_exercises_clamp :
  ~ exists (df : list Row) (sym : string) (st : scorer),
      scored df sym = Ok st /\ (raw_score st < -2 \/ 2 < raw_score st).
Proof.
  intros (df & sym & st & H & Hout).
  destruct (scored_ok_shape df sym st H) as [_ (previous & s0 & Hs)].
  pose proof (shape_raw_score previous s0 st Hs). lra.
Qed.

(** ** C4: signal strength *)



(** ** C5: labels *)

(** C5: for every non-empty annotated series the label of the returned
    Signal follows the normalized score n, which lies in [−2, 2]:
    strong_buy on (1.5, 2], buy on (0.5, 1.5], neutral on (−0.5, 0.5], sell
    on (−1.5, −0.5], strong_sell on [−2, −1.5]. *)
Theorem overall_signal_thresholds (df : list Row) (sym : string) :
  df <> [] ->
  exists st s,
    scored df sym = Ok st /\
    generate_signals (Some df) sym = Ok (Some s) /\
    let n := normalized_score st in
    - 2 <= n <= 2 /\
    (3 # 2 < n <= 2 -> overall_signal s = "strong_buy") /\
    (1 # 2 < n <= 3 # 2 -> overall_signal s = "buy") /\
    (- (1 # 2) < n <= 1 # 2 -> overall_signal s = "neutral") /\
    (- (3 # 2) < n <= - (1 # 2) -> overall_signal s = "sell") /\
    (- 2 <= n <= - (3 # 2) -> overall_signal s = "strong_sell").
Proof.
  intros Hne.
  destruct (scored_shape df sym Hne) as (previous & s0 & st & Hs & _).
  exists st, (finish st). split; [exact Hs|].
  split; [now apply generate_signals_scored|].
  cbv zeta. simpl overall_signal.
  destruct (label_cases (normalized_score st)) as (L1 & L2 & L3 & L4 & L5).
  split; [apply normalized_score_range|].
  repeat split; intros [? ?]; auto.
Qed.

Lemma overall_signal_thresholds_witness :
  unanimous <> [] /\
  exists st s,
    scored unanimous "AAPL" = Ok st /\
    generate_signals (Some unanimous) "AAPL" = Ok (Some s) /\
    overall_signal s = "strong_buy" /\
    let n := normalized_score st in
    - 2 <= n <= 2 /\
    (3 # 2 < n <= 2 -> overall_signal s = "strong_buy") /\
    (1 # 2 < n <= 3 # 2 -> overall_signal s = "buy") /\
    (- (1 # 2) < n <= 1 # 2 -> overall_signal s = "neutral") /\
    (- (3 # 2) < n <= - (1 # 2) -> overall_signal s = "sell") /\
    (- 2 <= n <= - (3 # 2) -> overall_signal s = "strong_sell").
Proof.
  split; [discriminate|].
  destruct (overall_signal_thresholds unanimous "AAPL")
    as (st & s & Hs & Hg & Hl); [discriminate|].
  exists st, s. split; [exact Hs|]. split; [exact Hg|].
  split; [vm_compute in Hg; injection Hg as <-; reflexivity | exact Hl].
Defined.

(** ** C7: a single bar *)

(** C7: on a series of exactly one bar the scorer takes the previous bar as
    absent and returns a Signal with change_pct = 0 and with none of the
    golden_cross, death_cross and macd_crossover entries. *)
Theorem single_bar_degrades (r : Row) (sym : string) :
  previous_row [r] = Ok None /\
  exists s,
    generate_signals (Some [r]) sym = Ok (Some s) /\
    change_pct s = Fin 0 /\
    dict_has "golden_cross" (indicators s) = false /\
    dict_has "death_cross" (indicators s) = false /\
    dict_has "macd_crossover" (indicators s) = false.
Proof.
  split; [reflexivity|].
  destruct (scored_single r sym) as (s0 & st & Hs & Hshape & Hh).
  exists (finish st). split; [now apply generate_signals_scored|].
  pose proof (shape_header _ _ _ Hshape) as Hst.
  rewrite Hh in Hst. unfold header in Hst. injection Hst as _ _ Hc.
  split; [exact Hc|].
  simpl indicators. rewrite !dict_has_keys.
  rewrite (shape_no_previous _ _ Hshape). repeat split.
Qed.

(** ** C8: golden cross and death cross *)

(** C8: for every non-empty annotated series the scorer returns a Signal
    whose mapping does not hold both a golden_cross and a death_cross
    entry. *)
Theorem golden_death_exclusive (df : list Row) (sym : string) :
  df <> [] ->
  exists s,
    generate_signals (Some df) sym = Ok (Some s) /\
    ~ (dict_has "golden_cross" (indicators s) = true /\
       dict_has "death_cross" (indicators s) = true).
Proof.
  intros Hne.
  destruct (scored_shape df sym Hne) as (previous & s0 & st & Hs & Hshape).
  exists (finish st). split; [now apply generate_signals_scored|].
  simpl indicators. intros [Hg Hd].
  destruct (shape_exclusive _ _ _ Hshape); congruence.
Qed.

Lemma golden_death_exclusive_witness :
  unanimous <> [] /\
  exists s,
    generate_signals (Some unanimous) "AAPL" = Ok (Some s) /\
    dict_has "golden_cross" (indicators s) = true /\
    ~ (dict_has "golden_cross" (indicators s) = true /\
       dict_has "death_cross" (indicators s) = true).
Proof.
  split; [discriminate|].
  destruct (golden_death_exclusive unanimous "AAPL") as (s & Hg & Hx);
    [discriminate|].
  exists s. split; [exact Hg|].
  split; [vm_compute in Hg; injection Hg as <-; reflexivity | exact Hx].
Defined.

(** ** C10: undefined indicator values *)

Lemma scored_last front current sym st :
  scored (front ++ [current])%list sym = Ok st ->
  exists previous s0,
    run_rules (front ++ [current])%list previous current s0 = Ok st.
Proof.
  unfold scored. rewrite iloc_last. simpl bind.
  destruct (previous_row (front ++ [current])%list) as [previous|];
    simpl bind; [|discriminate].
  destruct (initial_signals _ sym previous current) as [s0|];
    simpl bind; [|discriminate].
  intros H. now exists previous, s0.
Qed.

(** C10: a rule over an indicator that is undefined on the last bar is not
    skipped.  An undefined SMA20, SMA50 or SMA200 sends the comparison to
    its else branch: the entry is bearish, the score loses the full weight
    (0.5, 1, 1.5) and the rule is counted; an undefined RSI gives a neutral
    entry, leaves the score and is counted.  The entries are in the Signal
    that the scorer returns. *)
Theorem undefined_indicator_still_scored (front : list Row) (current : Row)
    (sym : string) :
  exists s,
    generate_signals (Some (front ++ [current])%list) sym = Ok (Some s) /\
    (SMA20 current = NaN ->
       dict_get "sma20" (indicators s)
         = Some (signal_value "bearish" (PyNum NaN)) /\
       forall st,
         score (rule_sma20 current st) = score st - (1 # 2) /\
         signal_count (rule_sma20 current st) = (signal_count st + 1)%Z) /\
    (SMA50 current = NaN ->
       dict_get "sma50" (indicators s)
         = Some (signal_value "bearish" (PyNum NaN)) /\
       forall st,
         score (rule_sma50 current st) = score st - 1 /\
         signal_count (rule_sma50 current st) = (signal_count st + 1)%Z) /\
    (SMA200 current = NaN ->
       dict_get "sma200" (indicators s)
         = Some (signal_value "bearish" (PyNum NaN)) /\
       forall st,
         score (rule_sma200 current st) = score st - (3 # 2) /\
         signal_count (rule_sma200 current st) = (signal_count st + 1)%Z) /\
    (RSI current = NaN ->
       dict_get "rsi" (indicators s)
         = Some (signal_value "neutral" (PyNum NaN)) /\
       forall st,
         exists st',
           rule_rsi current st = Ok st' /\
           score st' = score st /\
           signal_count st' = (signal_count st + 1)%Z).
Proof.
  destruct (scored_shape (front ++ [current])%list sym)
    as (previous & s0 & st & Hs & _).
  { now destruct front. }
  exists (finish st). split; [now apply generate_signals_scored|].
  destruct (scored_last _ _ _ _ Hs) as (previous' & s0' & Hrun).
  destruct (run_rules_entries _ _ _ _ _ Hrun)
    as (st5 & st8 & R5 & _ & H20 & H50 & H200 & Hrsi & _).
  unfold entry in *. simpl indicators.
  repeat split.
  - rewrite H20. unfold rule_sma20, rule_sma. rewrite H. simpl.
    apply dict_get_set_same.
  - unfold rule_sma20, rule_sma. now rewrite H.
  - unfold rule_sma20, rule_sma. now rewrite H.
  - rewrite H50. unfold rule_sma50 at 1. unfold rule_sma. rewrite H. simpl.
    apply dict_get_set_same.
  - unfold rule_sma50, rule_sma. now rewrite H.
  - unfold rule_sma50, rule_sma. now rewrite H.
  - rewrite H200. unfold rule_sma200 at 1. unfold rule_sma. rewrite H. simpl.
    apply dict_get_set_same.
  - unfold rule_sma200, rule_sma. now rewrite H.
  - unfold rule_sma200, rule_sma. now rewrite H.
  - rewrite Hrsi. unfold rule_rsi in R5. rewrite H in R5. simpl in R5.
    injection R5 as <-. simpl. apply dict_get_set_same.
  - intros st'. unfold rule_rsi. rewrite H. simpl.
    eexists. split; [reflexivity|]. split; reflexivity.
Qed.

Lemma undefined_indicator_still_scored_witness :
  SMA50 (undefined_row (flat_bar 1 10 1000)) = NaN /\
  exists s,
    generate_signals (Some first_day) "AAPL" = Ok (Some s) /\
    dict_get "sma50" (indicators s)
      = Some (signal_value "bearish" (PyNum NaN)) /\
    dict_get "rsi" (indicators s)
      = Some (signal_value "neutral" (PyNum NaN)).
Proof.
  split; [reflexivity|].
  destruct (undefined_indicator_still_scored
              [] (undefined_row (flat_bar 1 10 1000)) "AAPL")
    as (s & Hs & _ & H50 & _ & Hrsi).
  exists s. split; [exact Hs|].
  split; [exact (proj1 (H50 eq_refl)) | exact (proj1 (Hrsi eq_refl))].
Defined.

(** ** C6: the Bollinger position *)















(** ** C2: the indicator engine and malformed input *)



Lemma engine_nonempty (T : TaLib) (data : list Bar) :
  data <> [] ->
  calculate_technical_indicators (Some data) =
  (cs <- indicator_columns data ;; Ok (Some (annotate_from cs 0 data))).
Proof. destruct data; [congruence | reflexivity]. Qed.




(** ** C9: the watchlist *)

Lemma py_in_In (x : string) (l : list string) : py_in x l = true <-> In x l.
Proof.
  unfold py_in. rewrite existsb_exists. split.
  - intros (y & Hy & E). apply String.eqb_eq in E. now subst.
  - intros H. exists x. split; [exact H | apply String.eqb_refl].
Qed.

Lemma py_in_not_In (x : string) (l : list string) :
  py_in x l = false <-> ~ In x l.
Proof.
  rewrite <- py_in_In. destruct (py_in x l); split; congruence.
Qed.

Lemma list_remove_present (x : string) (l : list string) :
  In x l ->
  exists l',
    list_remove x l = Ok l' /\
    (NoDup l -> (forall y, In y l' <-> y <> x /\ In y l) /\ NoDup l').
Proof.
  induction l as [|y l IH]; intros Hin; [destruct Hin|].
  simpl. destruct (String.eqb y x) eqn:E.
  - apply String.eqb_eq in E. subst y.
    exists l. split; [reflexivity|].
    intros Hnd. inversion Hnd as [|? ? Hy Hnd']; subst.
    split; [|exact Hnd'].
    intros z. split.
    + intros Hz. split; [congruence | now right].
    + intros [Hne [Hz | Hz]]; [congruence | exact Hz].
  - apply String.eqb_neq in E.
    destruct Hin as [Hin | Hin]; [congruence|].
    destruct (IH Hin) as (l' & -> & Hrest).
    exists (y :: l'). split; [reflexivity|].
    intros Hnd. inversion Hnd as [|? ? Hy Hnd']; subst.
    destruct (Hrest Hnd') as [Hmem Hnd''].
    split.
    + intros z. simpl. rewrite Hmem. split.
      * intros [-> | [Hne Hz]]; [split; [congruence | now left] | auto].
      * intros [Hne [-> | Hz]]; [now left | right; auto].
    + constructor; [|exact Hnd'']. rewrite Hmem. tauto.
Qed.

Lemma add_stock_NoDup (x : string) (l l' : list string) (b : bool) :
  NoDup l -> add_stock x l = Ok (b, l') -> NoDup l'.
Proof.
  unfold add_stock. intros Hnd.
  destruct (py_in x l) eqn:E; simpl; intros [= <- <-]; [exact Hnd|].
  apply py_in_not_In in E.
  apply NoDup_app; [exact Hnd | repeat constructor; intros [] |].
  intros y Hy [<- | []]. contradiction.
Qed.

Lemma STOCK_SYMBOLS_NoDup : NoDup STOCK_SYMBOLS.
Proof.
  unfold STOCK_SYMBOLS.
  repeat (constructor; [simpl; intuition discriminate|]). constructor.
Qed.

(** C9: adding a tracked symbol and removing an untracked one change
    nothing and return False without raising; adding an untracked symbol
    returns True and tracks it; removing a tracked symbol returns True and,
    on a watchlist without repeats (the list as configured, and as
    add_stock and remove_stock leave it), leaves it untracked.  The other
    symbols stay as they were. *)
Theorem watchlist_operations (symbol : string) (watchlist : list string) :
  (In symbol watchlist ->
     add_stock symbol watchlist = Ok (false, watchlist)) /\
  (~ In symbol watchlist ->
     remove_stock symbol watchlist = Ok (false, watchlist)) /\
  (~ In symbol watchlist ->
     exists l,
       add_stock symbol watchlist = Ok (true, l) /\
       (forall y, In y l <-> y = symbol \/ In y watchlist) /\
       (NoDup watchlist -> NoDup l)) /\
  (In symbol watchlist ->
     exists l,
       remove_stock symbol watchlist = Ok (true, l) /\
       (NoDup watchlist ->
          (forall y, In y l <-> y <> symbol /\ In y watchlist) /\
          NoDup l)).
Proof.
  repeat split.
  - intros Hin. unfold add_stock.
    now rewrite (proj2 (py_in_In symbol watchlist) Hin).
  - intros Hout. unfold remove_stock.
    now rewrite (proj2 (py_in_not_In symbol watchlist) Hout).
  - intros Hout.
    assert (E : add_stock symbol watchlist
                = Ok (true, (watchlist ++ [symbol])%list)).
    { unfold add_stock.
      now rewrite (proj2 (py_in_not_In symbol watchlist) Hout). }
    exists (watchlist ++ [symbol])%list. split; [exact E|]. split.
    + intros y. rewrite in_app_iff. simpl. intuition.
    + intros Hnd. exact (add_stock_NoDup _ _ _ _ Hnd E).
  - intros Hin. unfold remove_stock.
    rewrite (proj2 (py_in_In symbol watchlist) Hin).
    destruct (list_remove_present symbol watchlist Hin) as (l & -> & Hrest).
    exists l. split; [reflexivity | exact Hrest].
Qed.

Lemma watchlist_operations_witness :
  NoDup STOCK_SYMBOLS /\
  add_stock "AAPL" STOCK_SYMBOLS = Ok (false, STOCK_SYMBOLS) /\
  remove_stock "IBM" STOCK_SYMBOLS = Ok (false, STOCK_SYMBOLS) /\
  (exists l, add_stock "IBM" STOCK_SYMBOLS = Ok (true, l) /\ In "IBM" l) /\
  (exists l,
     remove_stock "AAPL" STOCK_SYMBOLS = Ok (true, l) /\ ~ In "AAPL" l).
Proof.
  pose proof (watchlist_operations "AAPL" STOCK_SYMBOLS)
    as (Hadd & _ & _ & Hrem).
  pose proof (watchlist_operations "IBM" STOCK_SYMBOLS)
    as (_ & Hrem' & Hadd' & _).
  assert (Hin : In "AAPL" STOCK_SYMBOLS) by (now left).
  assert (Hout : ~ In "IBM" STOCK_SYMBOLS).
  { simpl. intuition discriminate. }
  split; [exact STOCK_SYMBOLS_NoDup|].
  split; [exact (Hadd Hin)|]. split; [exact (Hrem' Hout)|]. split.
  - destruct (Hadd' Hout) as (l & E & Hmem & _).
    exists l. split; [exact E | apply Hmem; now left].
  - destruct (Hrem Hin) as (l & E & Hrest).
    destruct (Hrest STOCK_SYMBOLS_NoDup) as [Hmem _].
    exists l. split; [exact E|]. intros H. apply Hmem in H. now destruct H.
Defined.

(** * Further properties of the code *)

(** ** The rules in closed form *)

Ltac solve_does :=
  split; simpl;
  [ reflexivity | ring | lia || reflexivity | reflexivity ].

Lemma rule_sma_does key sma (weight : Q) current st :
  does [(key, sma_entry sma current)] (sma_delta sma weight current) 1
       st (rule_sma key sma weight current st).
Proof.
  unfold rule_sma, sma_entry, sma_delta, sma_bullish.
  destruct (fl_gt (Fin (Close current)) (sma current)); solve_does.
Qed.

Lemma rule_cross_does previous current st :
  does (cross_entries previous current) (cross_delta previous current)
       (if golden_fires previous current || death_fires previous current
        then 1 else 0)
       st (rule_cross previous current st).
Proof.
  unfold rule_cross, cross_entries, cross_delta, golden_fires, death_fires.
  destruct previous as [p|]; [|solve_does].
  destruct (fl_le (SMA50 p) (SMA200 p)
            && fl_gt (SMA50 current) (SMA200 current)); [solve_does|].
  destruct (fl_ge (SMA50 p) (SMA200 p)
            && fl_lt (SMA50 current) (SMA200 current)); solve_does.
Qed.

Lemma rule_rsi_does current st :
  exists st',
    rule_rsi current st = Ok st' /\
    does [("rsi", rsi_entry current)] (rsi_delta current) 1 st st'.
Proof.
  unfold rule_rsi, rsi_entry, rsi_kind, rsi_delta.
  destruct (fl_lt (RSI current) (Fin RSI_OVERSOLD));
    [|destruct (fl_gt (RSI current) (Fin RSI_OVERBOUGHT))];
    rewrite ?set_indicator_signal_after; simpl;
    eexists; (split; [reflexivity|]); solve_does.
Qed.

Lemma rule_macd_does current st :
  does [("macd", macd_entry current)] (macd_delta current) 1
       st (rule_macd current st).
Proof.
  unfold rule_macd, macd_entry, macd_delta, macd_bullish.
  destruct (fl_gt (MACD current) (MACD_Signal current)); solve_does.
Qed.

Lemma rule_macd_crossover_does previous current st :
  does (macd_crossover_entries previous current)
       (macd_crossover_delta previous current)
       (if macd_up_fires previous current || macd_down_fires previous current
        then 1 else 0)
       st (rule_macd_crossover previous current st).
Proof.
  unfold rule_macd_crossover, macd_crossover_entries, macd_crossover_delta,
    macd_up_fires, macd_down_fires.
  destruct previous as [p|]; [|solve_does].
  destruct (fl_le (MACD p) (MACD_Signal p)
            && fl_gt (MACD current) (MACD_Signal current)); [solve_does|].
  destruct (fl_ge (MACD p) (MACD_Signal p)
            && fl_lt (MACD current) (MACD_Signal current)); solve_does.
Qed.

Lemma rule_bollinger_does current st :
  exists st',
    rule_bollinger current st = Ok st' /\
    does [("bollinger", bollinger_entry current)] (bollinger_delta current) 1
         st st'.
Proof.
  unfold rule_bollinger, bollinger_entry, bollinger_kind, bollinger_delta.
  destruct (fl_gt (bb_position current) (Fin (95 # 100)));
    [|destruct (fl_lt (bb_position current) (Fin (5 # 100)))];
    rewrite ?set_indicator_signal_after; simpl;
    eexists; (split; [reflexivity|]); solve_does.
Qed.

Lemma rule_adx_does current st :
  exists st',
    rule_adx current st = Ok st' /\
    does [("adx", adx_entry current)] 0 0 st st'.
Proof.
  unfold rule_adx, adx_entry, adx_kind.
  destruct (fl_gt (ADX current) (Fin 25));
    [|destruct (fl_lt (ADX current) (Fin 20))];
    rewrite ?set_indicator_signal_after; simpl;
    eexists; (split; [reflexivity|]); solve_does.
Qed.

Lemma rule_stochastic_does current st :
  exists st',
    rule_stochastic current st = Ok st' /\
    does [("stochastic", stochastic_entry current)]
         (stochastic_delta current) 1 st st'.
Proof.
  unfold rule_stochastic, stochastic_entry, stochastic_kind, stochastic_delta.
  destruct (fl_lt (Stoch_K current) (Fin 20)
            && fl_lt (Stoch_D current) (Fin 20));
    [|destruct (fl_gt (Stoch_K current) (Fin 80)
                && fl_gt (Stoch_D current) (Fin 80))];
    rewrite ?set_indicator_signal_after; simpl;
    eexists; (split; [reflexivity|]); solve_does.
Qed.

Lemma rule_volume_does df previous current st :
  ends_with df previous current ->
  exists st',
    rule_volume df current st = Ok st' /\
    does [("volume", volume_entry df current)]
         (volume_delta df previous current) 1 st st'.
Proof.
  intros Hdf. unfold rule_volume, volume_entry, volume_delta, volume_high.
  destruct (Qltb (3 # 2) (volume_ratio df current)) eqn:E.
  - destruct Hdf as [[-> ->] | (front & p & -> & ->)].
    + now rewrite volume_ratio_single in E.
    + rewrite set_indicator_signal_after, iloc_before_last. simpl.
      destruct (Qltb (Close p) (Close current));
        eexists; (split; [reflexivity|]); solve_does.
  - simpl. eexists; (split; [reflexivity|]); solve_does.
Qed.

Lemma run_rules_closed df previous current s0 :
  indicators s0 = [] ->
  ends_with df previous current ->
  exists st,
    run_rules df previous current s0 = Ok st /\
    indicators (signals st) = closed_entries df previous current /\
    score st == closed_score df previous current /\
    signal_count st = closed_count previous current /\
    header (signals st) = header s0.
Proof.
  intros H0 Hdf. unfold run_rules, rule_sma20, rule_sma50, rule_sma200.
  set (st0 := {| signals := s0; score := 0; signal_count := 0 |}).
  pose proof (rule_sma_does "sma20" SMA20 (1 # 2) current st0) as D1.
  set (st1 := rule_sma "sma20" SMA20 (1 # 2) current st0) in *.
  pose proof (rule_sma_does "sma50" SMA50 1 current st1) as D2.
  set (st2 := rule_sma "sma50" SMA50 1 current st1) in *.
  pose proof (rule_sma_does "sma200" SMA200 (3 # 2) current st2) as D3.
  set (st3 := rule_sma "sma200" SMA200 (3 # 2) current st2) in *.
  pose proof (rule_cross_does previous current st3) as D4.
  set (st4 := rule_cross previous current st3) in *.
  destruct (rule_rsi_does current st4) as [st5 [-> D5]]. simpl bind.
  pose proof (rule_macd_does current st5) as D6.
  set (st6 := rule_macd current st5) in *.
  pose proof (rule_macd_crossover_does previous current st6) as D7.
  set (st7 := rule_macd_crossover previous current st6) in *.
  destruct (rule_bollinger_does current st7) as [st8 [-> D8]]. simpl bind.
  destruct (rule_adx_does current st8) as [st9 [-> D9]]. simpl bind.
  destruct (rule_stochastic_does current st9) as [st10 [-> D10]]. simpl bind.
  destruct (rule_volume_does df previous current st10 Hdf) as [st11 [-> D11]].
  exists st11. split; [reflexivity|].
  destruct D1 as [I1 S1 C1 H1], D2 as [I2 S2 C2 H2], D3 as [I3 S3 C3 H3],
    D4 as [I4 S4 C4 H4], D5 as [I5 S5 C5 H5], D6 as [I6 S6 C6 H6],
    D7 as [I7 S7 C7 H7], D8 as [I8 S8 C8 H8], D9 as [I9 S9 C9 H9],
    D10 as [I10 S10 C10 H10], D11 as [I11 S11 C11 H11].
  change (score st0) with 0 in S1.
  change (signal_count st0) with 0%Z in C1.
  change (indicators (signals st0)) with (indicators s0) in I1.
  change (signals st0) with s0 in H1.
  repeat split.
  - rewrite I11, I10, I9, I8, I7, I6, I5, I4, I3, I2, I1, H0.
    unfold closed_entries, cross_entries, macd_crossover_entries.
    destruct (golden_fires previous current),
      (death_fires previous current), (macd_up_fires previous current),
      (macd_down_fires previous current); reflexivity.
  - unfold closed_score. lra.
  - unfold closed_count. lia.
  - congruence.
Qed.

Lemma ends_with_single (r : Row) : ends_with [r] None r.
Proof. now left. Qed.

Lemma ends_with_many (front : list Row) (p r : Row) :
  ends_with (front ++ [p; r])%list (Some p) r.
Proof. right. now exists front, p. Qed.

Lemma last_rows_ends_with df previous current :
  last_rows df = Some (previous, current) <-> ends_with df previous current.
Proof.
  unfold last_rows. split.
  - intros H. destruct (rev df) as [|r [|p l]] eqn:E; [discriminate| |].
    + injection H as <- <-. left. split; [|reflexivity].
      rewrite <- (rev_involutive df), E. reflexivity.
    + injection H as <- <-. right. exists (rev l), p. split; [|reflexivity].
      rewrite <- (rev_involutive df), E. simpl.
      now rewrite <- !app_assoc.
  - intros [[-> ->] | (front & p & -> & ->)]; [reflexivity|].
    rewrite rev_app_distr. reflexivity.
Qed.

Lemma last_rows_nonempty (df : list Row) :
  df <> [] -> exists previous current, last_rows df = Some (previous, current).
Proof.
  intros Hne.
  destruct (frame_cases df Hne) as [[r ->] | (front & p & r & ->)].
  - now exists None, r.
  - exists (Some p), r. apply last_rows_ends_with, ends_with_many.
Qed.

(** [scored] in closed form. *)
Lemma scored_closed df (sym : string) previous current :
  ends_with df previous current ->
  exists st,
    scored df sym = Ok st /\
    indicators (signals st) = closed_entries df previous current /\
    score st == closed_score df previous current /\
    signal_count st = closed_count previous current /\
    header (signals st)
      = (sym, round2 (Close current), closed_change previous current).
Proof.
  intros Hdf.
  assert (Hs : exists s0,
             indicators s0 = [] /\
             header s0
               = (sym, round2 (Close current),
                  closed_change previous current) /\
             scored df sym = run_rules df previous current s0).
  { destruct Hdf as [[-> ->] | (front & p & -> & ->)].
    - eexists. split; [|split]; [| |reflexivity]; reflexivity.
    - unfold scored, previous_row, initial_signals.
      assert (Hlast : iloc (front ++ [p; current])%list (-1) = Ok current).
      { replace (front ++ [p; current])%list
          with ((front ++ [p]) ++ [current])%list
          by now rewrite <- app_assoc.
        apply iloc_last. }
      assert (Hlen : (1 <? length (front ++ [p; current])%list)%nat = true).
      { apply Nat.ltb_lt. rewrite length_app. simpl. lia. }
      rewrite Hlast, Hlen, iloc_before_last. simpl bind.
      eexists. split; [|split]; [| |reflexivity]; reflexivity. }
  destruct Hs as (s0 & H0 & Hh & ->).
  destruct (run_rules_closed df previous current s0 H0 Hdf)
    as (st & Hrun & Hi & Hsc & Hc & Hhd).
  exists st. rewrite <- Hh. auto.
Qed.

(** ** The Signal in closed form *)

Lemma generate_signals_closed df (sym : string) previous current :
  last_rows df = Some (previous, current) ->
  exists st,
    scored df sym = Ok st /\
    generate_signals (Some df) sym = Ok (Some (finish st)) /\
    indicators (signals st) = closed_entries df previous current /\
    score st == closed_score df previous current /\
    signal_count st = closed_count previous current /\
    header (signals st)
      = (sym, round2 (Close current), closed_change previous current).
Proof.
  intros H. apply last_rows_ends_with in H.
  destruct (scored_closed df sym previous current H)
    as (st & Hs & Hi & Hsc & Hc & Hh).
  exists st. split; [exact Hs|].
  split; [now apply generate_signals_scored | auto].
Qed.





Lemma round_half_even_ge (a : Z) (q : Q) :
  inject_Z a <= q -> (a <= round_half_even q)%Z.
Proof.
  intros H.
  apply (round_half_even_bounds a (Qfloor q + 1) q).
  split; [exact H | apply Qlt_le_weak, Qlt_floor].
Qed.

Lemma round_half_even_le (b : Z) (q : Q) :
  q <= inject_Z b -> (round_half_even q <= b)%Z.
Proof.
  intros H.
  apply (round_half_even_bounds (Qfloor q) b q).
  split; [apply Qfloor_le | exact H].
Qed.

(** Rounding to two decimals keeps a number on its side of 0, and does not
    round a hundredth or more to 0. *)
Lemma round2_sign (q : Q) :
  (0 <= q -> 0 <= round2 q) /\
  (q <= 0 -> round2 q <= 0) /\
  (1 # 100 <= q -> 0 < round2 q) /\
  (q <= - (1 # 100) -> round2 q < 0).
Proof.
  unfold round2.
  repeat split; intros H.
  - assert (Hk : (0 <= round_half_even (q * 100))%Z).
    { apply round_half_even_ge. change (inject_Z 0) with 0. lra. }
    rewrite Zle_Qle in Hk. change (inject_Z 0) with 0 in Hk.
    apply Qle_shift_div_l; lra.
  - assert (Hk : (round_half_even (q * 100) <= 0)%Z).
    { apply round_half_even_le. change (inject_Z 0) with 0. lra. }
    rewrite Zle_Qle in Hk. change (inject_Z 0) with 0 in Hk.
    apply Qle_shift_div_r; lra.
  - assert (Hk : (1 <= round_half_even (q * 100))%Z).
    { apply round_half_even_ge. change (inject_Z 1) with 1. lra. }
    rewrite Zle_Qle in Hk. change (inject_Z 1) with 1 in Hk.
    apply Qlt_shift_div_l; lra.
  - assert (Hk : (round_half_even (q * 100) <= -1)%Z).
    { apply round_half_even_le. change (inject_Z (-1)) with (-1 # 1). lra. }
    rewrite Zle_Qle in Hk. change (inject_Z (-1)) with (-1 # 1) in Hk.
    apply Qlt_shift_div_r; lra.
Qed.

Lemma closed_change_finite (p current : Row) :
  ~ Close p == 0 ->
  closed_change (Some p) current
  = Fin (round2 ((Close current / Close p - 1) * 100)).
Proof.
  intros Hp. unfold closed_change, fl_div.
  destruct (Qeq_bool (Close p) 0) eqn:E;
    [apply Qeq_bool_eq in E; contradiction | reflexivity].
Qed.

(** X2: the Signal carries the symbol it was asked for, and its change_pct
    has the direction of the move from the previous close (taken positive):
    it is never negative when the close did not fall and never positive when
    it did not rise, so the message shows no arrow against the move; a move
    of at least one part in ten thousand does show, as a positive or a
    negative change_pct.  Without a previous bar change_pct is 0, and a
    previous close of zero gives an infinite or undefined change_pct, not an
    exception. *)
Theorem change_pct_direction df (sym : string) previous current :
  last_rows df = Some (previous, current) ->
  exists s,
    generate_signals (Some df) sym = Ok (Some s) /\
    symbol s = sym /\
    (previous = None -> change_pct s = Fin 0) /\
    (forall p, previous = Some p -> 0 < Close p ->
       (Close p <= Close current -> fl_lt (change_pct s) (Fin 0) = false) /\
       (Close current <= Close p -> fl_gt (change_pct s) (Fin 0) = false) /\
       (Close p * (10001 # 10000) <= Close current ->
          fl_gt (change_pct s) (Fin 0) = true) /\
       (Close current <= Close p * (9999 # 10000) ->
          fl_lt (change_pct s) (Fin 0) = true)) /\
    (forall p, previous = Some p -> Close p == 0 ->
       change_pct s = fl_of_sgn (Z.sgn (Qnum (Close current)))).
Proof.
  intros H.
  destruct (generate_signals_closed df sym previous current H)
    as (st & _ & Hg & _ & _ & _ & Hh).
  exists (finish st). split; [exact Hg|].
  unfold header in Hh. injection Hh as Hsym Hprice Hchange.
  simpl symbol. simpl change_pct. rewrite Hchange.
  split; [exact Hsym|]. split; [now intros ->|]. split.
  - intros p -> Hp.
    rewrite closed_change_finite by lra.
    set (d := Close current / Close p).
    destruct (round2_sign ((d - 1) * 100)) as (Hge & Hle & Hgt & Hlt).
    unfold fl_gt, fl_lt. repeat split; intros Hc.
    + apply Qltb_ge, Hge.
      assert (1 <= d) by (apply Qle_shift_div_l; lra). lra.
    + apply Qltb_ge, Hle.
      assert (d <= 1) by (apply Qle_shift_div_r; lra). lra.
    + apply Qltb_lt, Hgt.
      assert (10001 # 10000 <= d) by (apply Qle_shift_div_l; lra). lra.
    + apply Qltb_lt, Hlt.
      assert (d <= 9999 # 10000) by (apply Qle_shift_div_r; lra). lra.
  - intros p -> Hp. unfold closed_change, fl_div.
    rewrite (Qeq_eq_bool _ _ Hp). simpl fl_sgn.
    now destruct (Z.sgn (Qnum (Close current))).
Qed.

Lemma change_pct_direction_witness :
  last_rows unanimous = Some (Some bull_previous, bull_current) /\
  0 < Close bull_previous /\
  Close bull_previous * (10001 # 10000) <= Close bull_current /\
  exists s,
    generate_signals (Some unanimous) "AAPL" = Ok (Some s) /\
    symbol s = "AAPL" /\
    fl_lt (change_pct s) (Fin 0) = false /\
    fl_gt (change_pct s) (Fin 0) = true.
Proof.
  assert (Hp : 0 < Close bull_previous) by reflexivity.
  assert (Hup : Close bull_previous * (10001 # 10000) <= Close bull_current)
    by discriminate.
  split; [reflexivity|]. split; [exact Hp|]. split; [exact Hup|].
  destruct (change_pct_direction unanimous "AAPL"
              (Some bull_previous) bull_current eq_refl)
    as (s & Hg & Hsym & _ & Hdir & _).
  destruct (Hdir bull_previous eq_refl Hp) as (Hge & _ & Hgt & _).
  exists s. split; [exact Hg|]. split; [exact Hsym|]. split.
  - apply Hge. discriminate.
  - apply Hgt. exact Hup.
Defined.



(** ** When the crossover entries appear *)

Lemma Qltb_asym (x y : Q) : Qltb x y = true -> Qltb y x = false.
Proof. intros H. apply Qltb_lt in H. apply Qltb_ge. lra. Qed.

Lemma fl_lt_asym (a b : fl) : fl_lt a b = true -> fl_lt b a = false.
Proof.
  destruct a, b; simpl; try discriminate; try reflexivity.
  apply Qltb_asym.
Qed.

Lemma golden_death_disjoint previous current :
  golden_fires previous current = true -> death_fires previous current = false.
Proof.
  unfold golden_fires, death_fires. destruct previous as [p|]; [|reflexivity].
  intros H. apply andb_prop in H. destruct H as [_ H].
  unfold fl_gt in H. rewrite (fl_lt_asym _ _ H). apply andb_false_r.
Qed.

Lemma macd_up_down_disjoint previous current :
  macd_up_fires previous current = true ->
  macd_down_fires previous current = false.
Proof.
  unfold macd_up_fires, macd_down_fires.
  destruct previous as [p|]; [|reflexivity].
  intros H. apply andb_prop in H. destruct H as [_ H].
  unfold fl_gt in H. rewrite (fl_lt_asym _ _ H). apply andb_false_r.
Qed.

(** X4: the Signal has a golden_cross entry exactly when there is a
    previous bar with SMA50 <= SMA200 and the last bar has SMA50 > SMA200, a
    death_cross entry exactly when the previous bar has SMA50 >= SMA200 and
    the last bar SMA50 < SMA200, and a macd_crossover entry exactly when
    MACD crossed its signal line in one of the two directions, bullish
    upwards and bearish downwards.  The two conditions of each pair exclude
    each other, and a comparison with an undefined value never fires. *)
Theorem crossover_entries_iff df (sym : string) previous current :
  last_rows df = Some (previous, current) ->
  exists s,
    generate_signals (Some df) sym = Ok (Some s) /\
    dict_has "golden_cross" (indicators s) = golden_fires previous current /\
    dict_has "death_cross" (indicators s) = death_fires previous current /\
    dict_get "macd_crossover" (indicators s)
      = (if macd_up_fires previous current
         then Some (signal_value "bullish" (PyBool true))
         else if macd_down_fires previous current
         then Some (signal_value "bearish" (PyBool true))
         else None) /\
    golden_fires previous current && death_fires previous current = false /\
    macd_up_fires previous current && macd_down_fires previous current
      = false.
Proof.
  intros H.
  destruct (generate_signals_closed df sym previous current H)
    as (st & _ & Hg & Hi & _).
  exists (finish st). split; [exact Hg|]. simpl indicators. rewrite Hi.
  pose proof (golden_death_disjoint previous current) as Hgd.
  pose proof (macd_up_down_disjoint previous current) as Hud.
  unfold closed_entries, cross_entries, macd_crossover_entries, dict_has.
  destruct (golden_fires previous current),
    (death_fires previous current), (macd_up_fires previous current),
    (macd_down_fires previous current);
    try (specialize (Hgd eq_refl); discriminate);
    try (specialize (Hud eq_refl); discriminate);
    repeat split.
Qed.

Lemma crossover_entries_iff_witness :
  last_rows unanimous = Some (Some bull_previous, bull_current) /\
  exists s,
    generate_signals (Some unanimous) "AAPL" = Ok (Some s) /\
    dict_has "golden_cross" (indicators s) = true /\
    dict_has "death_cross" (indicators s) = false /\
    dict_get "macd_crossover" (indicators s)
      = Some (signal_value "bullish" (PyBool true)).
Proof.
  split; [reflexivity|].
  destruct (crossover_entries_iff unanimous "AAPL"
              (Some bull_previous) bull_current eq_refl)
    as (s & Hg & Hgc & Hdc & Hmc & _).
  exists s. split; [exact Hg|]. split; [exact Hgc|]. split; [exact Hdc|].
  exact Hmc.
Defined.

(** ** What the scorer reads *)

Lemma tail_app {A} (n : nat) (l1 l2 : list A) :
  (n <= length l2)%nat -> tail n (l1 ++ l2)%list = tail n l2.
Proof.
  intros H. unfold tail. rewrite length_app, skipn_app.
  rewrite skipn_all2 by lia. simpl. f_equal. lia.
Qed.

Lemma volume_ratio_recent (older recent : list Row) (current : Row) :
  (5 <= length recent)%nat ->
  volume_ratio (older ++ recent)%list current = volume_ratio recent current.
Proof.
  intros H. unfold volume_ratio.
  rewrite map_app, tail_app by (rewrite length_map; exact H). reflexivity.
Qed.

Lemma Qltb_ext (x y x' y' : Q) :
  x == x' -> y == y' -> Qltb x y = Qltb x' y'.
Proof. intros Hx Hy. unfold Qltb. now rewrite Hx, Hy. Qed.

Lemma round2_ext (q q' : Q) : q == q' -> round2 q = round2 q'.
Proof.
  intros H. unfold round2. f_equal. f_equal. unfold round_half_even.
  assert (Hf : Qfloor (q * 100) = Qfloor (q' * 100)) by now rewrite H.
  rewrite Hf.
  assert (Hc : ((q * 100 - inject_Z (Qfloor (q' * 100))) ?= 1 # 2)%Q
               = ((q' * 100 - inject_Z (Qfloor (q' * 100))) ?= 1 # 2)%Q)
    by now rewrite H.
  now rewrite Hc.
Qed.

Lemma label_ext (q q' : Q) : q == q' -> label q = label q'.
Proof.
  intros H. unfold label.
  now rewrite !(Qltb_ext _ q _ q' (Qeq_refl _) H).
Qed.

Lemma normalized_score_ext (st st' : scorer) :
  score st == score st' -> signal_count st = signal_count st' ->
  normalized_score st == normalized_score st'.
Proof.
  intros Hs Hc. unfold normalized_score. rewrite <- Hc.
  destruct (0 <? signal_count st)%Z; [|reflexivity].
  assert (Hr : raw_score st == raw_score st').
  { unfold raw_score. now rewrite Hs, Hc. }
  unfold py_max, py_min.
  rewrite (Qltb_ext 2 (raw_score st) 2 (raw_score st') (Qeq_refl _) Hr).
  destruct (Qltb 2 (raw_score st')); [reflexivity|].
  rewrite (Qltb_ext (raw_score st) (-2) (raw_score st') (-2) Hr (Qeq_refl _)).
  now destruct (Qltb (raw_score st') (-2)).
Qed.

(** Two states with the same mapping, header, count and score give the same
    Signal. *)
Lemma finish_ext (st st' : scorer) :
  header (signals st) = header (signals st') ->
  indicators (signals st) = indicators (signals st') ->
  score st == score st' ->
  signal_count st = signal_count st' ->
  finish st = finish st'.
Proof.
  intros Hh Hi Hs Hc. unfold header in Hh. injection Hh as H1 H2 H3.
  pose proof (normalized_score_ext st st' Hs Hc) as Hn.
  unfold finish. rewrite H1, H2, H3, Hi.
  now rewrite (label_ext _ _ Hn), (round2_ext _ _ Hn).
Qed.

(** X5: the Signal is a function of the last two rows and of the volumes of
    the last five rows.  Two frames that agree on these give the same
    result, whatever their length and their older rows. *)
Theorem signal_depends_on_recent_rows df df' (sym : string) previous current :
  last_rows df = Some (previous, current) ->
  last_rows df' = Some (previous, current) ->
  tail 5 (map (fun r : Row => Volume r) df)
    = tail 5 (map (fun r : Row => Volume r) df') ->
  generate_signals (Some df) sym = generate_signals (Some df') sym.
Proof.
  intros H H' Hv.
  destruct (generate_signals_closed df sym previous current H)
    as (st & _ & -> & Hi & Hs & Hc & Hh).
  destruct (generate_signals_closed df' sym previous current H')
    as (st' & _ & -> & Hi' & Hs' & Hc' & Hh').
  assert (Hr : volume_ratio df current = volume_ratio df' current).
  { unfold volume_ratio. now rewrite Hv. }
  do 2 f_equal. apply finish_ext.
  - congruence.
  - rewrite Hi, Hi'. unfold closed_entries, volume_entry, volume_high.
    unfold rounded_volume_ratio. now rewrite Hr, Hv.
  - rewrite Hs, Hs'. unfold closed_score, volume_delta, volume_high.
    rewrite Hr. reflexivity.
  - congruence.
Qed.

Lemma signal_depends_on_recent_rows_witness :
  generate_signals
    (Some (undefined_row (flat_bar 0 50 100) :: unanimous)) "AAPL"
  = generate_signals
      (Some (with_adx (Fin 40) bull_previous :: unanimous)) "AAPL".
Proof.
  apply (signal_depends_on_recent_rows _ _ "AAPL"
           (Some bull_previous) bull_current); reflexivity.
Defined.

(** ** ADX *)

Lemma frame_previous (front : list Row) :
  exists previous, forall c, ends_with (front ++ [c])%list previous c.
Proof.
  destruct front as [|x front'] using rev_ind.
  - exists None. intros c. now left.
  - exists (Some x). intros c. right. exists front', x.
    split; [now rewrite <- app_assoc | reflexivity].
Qed.

Lemma volume_ratio_with_adx (front : list Row) (a : fl) (current : Row) :
  volume_ratio (front ++ [with_adx a current])%list (with_adx a current)
  = volume_ratio (front ++ [current])%list current.
Proof. unfold volume_ratio. rewrite !map_app. reflexivity. Qed.

Lemma closed_entries_with_adx front previous (a : fl) (current : Row) :
  closed_entries (front ++ [with_adx a current])%list previous
    (with_adx a current)
  = dict_set "adx" (adx_entry (with_adx a current))
      (closed_entries (front ++ [current])%list previous current).
Proof.
  unfold closed_entries, volume_entry, volume_high.
  rewrite volume_ratio_with_adx.
  replace (rounded_volume_ratio (front ++ [with_adx a current])%list
             (with_adx a current))
    with (rounded_volume_ratio (front ++ [current])%list current)
    by (unfold rounded_volume_ratio; rewrite !map_app; reflexivity).
  change (cross_entries previous (with_adx a current))
    with (cross_entries previous current).
  change (macd_crossover_entries previous (with_adx a current))
    with (macd_crossover_entries previous current).
  unfold cross_entries, macd_crossover_entries.
  destruct (golden_fires previous current),
    (death_fires previous current), (macd_up_fires previous current),
    (macd_down_fires previous current); reflexivity.
Qed.

Lemma closed_score_with_adx front previous (a : fl) (current : Row) :
  closed_score (front ++ [with_adx a current])%list previous
    (with_adx a current)
  = closed_score (front ++ [current])%list previous current.
Proof.
  unfold closed_score, volume_delta, volume_high.
  rewrite volume_ratio_with_adx. reflexivity.
Qed.

(** X6: ADX is informational only.  Replacing the ADX value of the last row
    by any other value, undefined included, leaves the recommendation, the
    signal strength, the header fields and every entry but adx as they
    were. *)
Theorem adx_is_informational (front : list Row) (current : Row) (a : fl)
    (sym : string) :
  exists s s',
    generate_signals (Some (front ++ [current])%list) sym = Ok (Some s) /\
    generate_signals (Some (front ++ [with_adx a current])%list) sym
      = Ok (Some s') /\
    overall_signal s' = overall_signal s /\
    signal_strength s' = signal_strength s /\
    header s' = header s /\
    dict_keys (indicators s') = dict_keys (indicators s) /\
    forall k, k <> "adx" ->
      dict_get k (indicators s') = dict_get k (indicators s).
Proof.
  destruct (frame_previous front) as [previous Hends].
  destruct (scored_closed _ sym previous current (Hends current))
    as (st & Hsc & Hi & Hs & Hc & Hh).
  destruct (scored_closed _ sym previous (with_adx a current)
              (Hends (with_adx a current)))
    as (st' & Hsc' & Hi' & Hs' & Hc' & Hh').
  exists (finish st), (finish st').
  split; [now apply generate_signals_scored|].
  split; [now apply generate_signals_scored|].
  rewrite closed_entries_with_adx in Hi'.
  rewrite closed_score_with_adx in Hs'.
  change (closed_count previous (with_adx a current))
    with (closed_count previous current) in Hc'.
  change (closed_change previous (with_adx a current))
    with (closed_change previous current) in Hh'.
  change (Close (with_adx a current)) with (Close current) in Hh'.
  assert (Hn : normalized_score st' == normalized_score st).
  { apply normalized_score_ext; [now rewrite Hs, Hs' | congruence]. }
  simpl. split; [exact (label_ext _ _ Hn)|].
  split; [exact (round2_ext _ _ Hn)|].
  split; [unfold header in *; simpl; congruence|].
  rewrite Hi', Hi. split.
  - rewrite dict_keys_set.
    unfold closed_entries, cross_entries, macd_crossover_entries.
    destruct (golden_fires previous current),
      (death_fires previous current), (macd_up_fires previous current),
      (macd_down_fires previous current); reflexivity.
  - intros k Hk. now apply dict_get_set_other.
Qed.

(** ** The watchlist, operation after operation *)

Lemma list_remove_appended (x : string) (l : list string) :
  ~ In x l -> list_remove x (l ++ [x])%list = Ok l.
Proof.
  induction l as [|y l IH]; intros Hout; simpl.
  - now rewrite String.eqb_refl.
  - destruct (String.eqb y x) eqn:E.
    + apply String.eqb_eq in E. subst y. exfalso. apply Hout. now left.
    + rewrite IH by (intros H; apply Hout; now right). reflexivity.
Qed.

(** X7: adding an untracked symbol and removing it again gives back the very
    list, order included.  Removing a tracked symbol from a list without
    repeats and adding it again keeps the members and moves the symbol to
    the end. *)
Theorem watchlist_round_trip (symbol : string) (watchlist : list string) :
  (~ In symbol watchlist ->
     exists l,
       add_stock symbol watchlist = Ok (true, l) /\
       remove_stock symbol l = Ok (true, watchlist)) /\
  (In symbol watchlist -> NoDup watchlist ->
     exists l l',
       remove_stock symbol watchlist = Ok (true, l) /\
       add_stock symbol l = Ok (true, l') /\
       l' = (l ++ [symbol])%list /\
       forall y, In y l' <-> In y watchlist).
Proof.
  split.
  - intros Hout. exists (watchlist ++ [symbol])%list. split.
    + unfold add_stock.
      now rewrite (proj2 (py_in_not_In symbol watchlist) Hout).
    + unfold remove_stock.
      assert (Hin : In symbol (watchlist ++ [symbol])%list)
        by (apply in_or_app; right; now left).
      rewrite (proj2 (py_in_In _ _) Hin).
      now rewrite (list_remove_appended symbol watchlist Hout).
  - intros Hin Hnd.
    destruct (list_remove_present symbol watchlist Hin) as (l & Hrm & Hrest).
    destruct (Hrest Hnd) as [Hmem _].
    assert (Hout : ~ In symbol l) by (intros H; apply Hmem in H; tauto).
    exists l, (l ++ [symbol])%list. split; [|split; [|split]].
    + unfold remove_stock. rewrite (proj2 (py_in_In _ _) Hin), Hrm.
      reflexivity.
    + unfold add_stock. now rewrite (proj2 (py_in_not_In symbol l) Hout).
    + reflexivity.
    + intros y. rewrite in_app_iff, Hmem. simpl.
      destruct (string_dec y symbol) as [-> | Hne]; [tauto|].
      split; [intros [[_ H] | [H | []]]; [exact H | congruence] | tauto].
Qed.

Lemma watchlist_round_trip_witness :
  ~ In "IBM" STOCK_SYMBOLS /\
  In "MSFT" STOCK_SYMBOLS /\
  NoDup STOCK_SYMBOLS /\
  (exists l,
     add_stock "IBM" STOCK_SYMBOLS = Ok (true, l) /\
     remove_stock "IBM" l = Ok (true, STOCK_SYMBOLS)) /\
  (exists l l',
     remove_stock "MSFT" STOCK_SYMBOLS = Ok (true, l) /\
     add_stock "MSFT" l = Ok (true, l') /\
     l' = ["AAPL"; "GOOGL"; "AMZN"; "META"; "TSLA"; "NVDA"; "MSFT"]).
Proof.
  assert (Hout : ~ In "IBM" STOCK_SYMBOLS) by (simpl; intuition discriminate).
  assert (Hin : In "MSFT" STOCK_SYMBOLS) by (right; now left).
  split; [exact Hout|]. split; [exact Hin|].
  split; [exact STOCK_SYMBOLS_NoDup|]. split.
  - exact (proj1 (watchlist_round_trip "IBM" STOCK_SYMBOLS) Hout).
  - destruct (proj2 (watchlist_round_trip "MSFT" STOCK_SYMBOLS) Hin
                STOCK_SYMBOLS_NoDup) as (l & l' & Hrm & Hadd & Hl & _).
    exists l, l'. split; [exact Hrm|]. split; [exact Hadd|].
    rewrite Hl. vm_compute in Hrm. injection Hrm as <-. reflexivity.
Defined.

(** X8: a repeated call is refused.  After add_stock, whatever it returned,
    adding the same symbol again returns False and changes nothing; after
    remove_stock on a list without repeats, removing the same symbol again
    returns False and changes nothing.  Both keep a list without repeats
    free of repeats. *)
Theorem watchlist_repeated_call (symbol : string) (watchlist l : list string)
    (b : bool) :
  (add_stock symbol watchlist = Ok (b, l) ->
     add_stock symbol l = Ok (false, l) /\ (NoDup watchlist -> NoDup l)) /\
  (NoDup watchlist -> remove_stock symbol watchlist = Ok (b, l) ->
     remove_stock symbol l = Ok (false, l) /\ NoDup l).
Proof.
  split.
  - intros Hadd. split; [|intros Hnd; exact (add_stock_NoDup _ _ _ _ Hnd Hadd)].
    assert (Hin : In symbol l).
    { unfold add_stock in Hadd. destruct (py_in symbol watchlist) eqn:E;
        simpl in Hadd; injection Hadd as <- <-.
      - now apply py_in_In.
      - apply in_or_app. right. now left. }
    unfold add_stock. now rewrite (proj2 (py_in_In _ _) Hin).
  - intros Hnd Hrm. unfold remove_stock in Hrm.
    destruct (py_in symbol watchlist) eqn:E.
    + apply py_in_In in E.
      destruct (list_remove_present symbol watchlist E) as (l0 & Hl0 & Hrest).
      rewrite Hl0 in Hrm. simpl in Hrm. injection Hrm as <- <-.
      destruct (Hrest Hnd) as [Hmem Hnd'].
      assert (Hout : ~ In symbol l0) by (intros H; apply Hmem in H; tauto).
      split; [|exact Hnd'].
      unfold remove_stock. now rewrite (proj2 (py_in_not_In _ _) Hout).
    + injection Hrm as <- <-. split; [|exact Hnd].
      unfold remove_stock. now rewrite E.
Qed.

Lemma watchlist_repeated_call_witness :
  NoDup STOCK_SYMBOLS /\
  (exists l,
     remove_stock "TSLA" STOCK_SYMBOLS = Ok (true, l) /\
     remove_stock "TSLA" l = Ok (false, l) /\ NoDup l) /\
  (exists l,
     add_stock "IBM" STOCK_SYMBOLS = Ok (true, l) /\
     add_stock "IBM" l = Ok (false, l)).
Proof.
  split; [exact STOCK_SYMBOLS_NoDup|]. split.
  - destruct (remove_stock "TSLA" STOCK_SYMBOLS) as [[b l]|] eqn:E;
      [|vm_compute in E; discriminate].
    assert (Hb : b = true) by (vm_compute in E; congruence). subst b.
    exists l. split; [reflexivity|].
    exact (proj2 (watchlist_repeated_call "TSLA" STOCK_SYMBOLS l true)
             STOCK_SYMBOLS_NoDup E).
  - destruct (add_stock "IBM" STOCK_SYMBOLS) as [[b l]|] eqn:E;
      [|vm_compute in E; discriminate].
    assert (Hb : b = true) by (vm_compute in E; congruence). subst b.
    exists l. split; [reflexivity|].
    exact (proj1 (proj1 (watchlist_repeated_call "IBM" STOCK_SYMBOLS l true)
                    E)).
Defined.

(** ** The formatter on the scorer's Signal *)

Lemma dict_get_In {V} (k : string) (v : V) (d : dict V) :
  dict_get k d = Some v -> In (k, v) d.
Proof.
  induction d as [|[k0 v0] d IH]; simpl; [discriminate|].
  destruct (String.eqb k k0) eqn:E.
  - apply String.eqb_eq in E. subst k0. intros [= ->]. now left.
  - intros H. right. now apply IH.
Qed.

Lemma entry_ok_signal (fields : list string) (e : subsignal) :
  entry_ok fields e = true -> exists s, dict_get "signal" e = Some (PyStr s).
Proof.
  unfold entry_ok. destruct (dict_get "signal" e) as [[s| | |]|];
    try discriminate. intros _. now exists s.
Qed.

Lemma entry_ok_field (fields : list string) (e : subsignal) (f : string) :
  entry_ok fields e = true -> In f fields -> exists v, dict_get f e = Some v.
Proof.
  unfold entry_ok. destruct (dict_get "signal" e) as [[s| | |]|];
    try discriminate.
  intros H Hin. rewrite forallb_forall in H. specialize (H f Hin).
  unfold dict_has in H. destruct (dict_get f e) as [v|]; [|discriminate].
  now exists v.
Qed.

(** The entries of the scorer have what the formatter reads. *)
Lemma closed_entries_formattable df previous current :
  formattable (closed_entries df previous current).
Proof.
  intros k e H. apply dict_get_In in H.
  unfold closed_entries, cross_entries, macd_crossover_entries in H.
  destruct (golden_fires previous current),
    (death_fires previous current), (macd_up_fires previous current),
    (macd_down_fires previous current);
    simpl in H;
    repeat (destruct H as [H | H]; [injection H as <- <-; reflexivity|]);
    destruct H.
Qed.

(** In a section: the entry under [k], with its signal and the fields the
    section prints. *)
Ltac read_entry Hm k :=
  let E := fresh "E" in
  let e := fresh "e" in
  let Hok := fresh "Hok" in
  let s := fresh "s" in
  let Hs := fresh "Hs" in
  unfold dict_has, field;
  destruct (dict_get k _) as [e|] eqn:E;
  [ pose proof (Hm _ _ E) as Hok;
    destruct (entry_ok_signal _ _ Hok) as [s Hs];
    rewrite ?Hs;
    repeat match goal with
           | |- context [dict_get ?f e] =>
               let v := fresh "v" in
               let Hv := fresh "Hv" in
               destruct (entry_ok_field _ _ f Hok ltac:(simpl; tauto))
                 as [v Hv];
               rewrite ?Hv
           end
  | ].

Ltac finish_section :=
  cbn [bind py_eq_str py_upper negb];
  repeat match goal with
         | |- context [String.eqb ?s ?t] => destruct (String.eqb s t)
         end;
  cbn [bind negb];
  eexists; reflexivity.

Lemma section_ma_total m :
  formattable m -> exists msg, section_ma m = Ok msg.
Proof.
  intros Hm. unfold section_ma, trend_emoji.
  read_entry Hm "sma20"; read_entry Hm "sma50"; read_entry Hm "sma200";
    finish_section.
Qed.

Lemma section_crosses_total m : exists msg, section_crosses m = Ok msg.
Proof.
  unfold section_crosses.
  destruct (dict_has "golden_cross" m), (dict_has "death_cross" m);
    eexists; reflexivity.
Qed.

Lemma section_rsi_total m :
  formattable m -> exists msg, section_rsi m = Ok msg.
Proof.
  intros Hm. unfold section_rsi. read_entry Hm "rsi"; finish_section.
Qed.

Lemma section_macd_total m :
  formattable m -> exists msg, section_macd m = Ok msg.
Proof.
  intros Hm. unfold section_macd, trend_emoji.
  read_entry Hm "macd"; finish_section.
Qed.

Lemma section_macd_crossover_total m :
  formattable m -> exists msg, section_macd_crossover m = Ok msg.
Proof.
  intros Hm. unfold section_macd_crossover, trend_emoji.
  read_entry Hm "macd_crossover"; finish_section.
Qed.

Lemma section_bollinger_total m :
  formattable m -> exists msg, section_bollinger m = Ok msg.
Proof.
  intros Hm. unfold section_bollinger, band_marker.
  read_entry Hm "bollinger"; finish_section.
Qed.

Lemma section_stochastic_total m :
  formattable m -> exists msg, section_stochastic m = Ok msg.
Proof.
  intros Hm. unfold section_stochastic, band_marker.
  read_entry Hm "stochastic"; finish_section.
Qed.

Lemma section_volume_total m :
  formattable m -> exists msg, section_volume m = Ok msg.
Proof.
  intros Hm. unfold section_volume. read_entry Hm "volume"; finish_section.
Qed.

Lemma section_adx_total (strength : Q) m :
  formattable m -> exists msg, section_adx strength m = Ok msg.
Proof.
  intros Hm. unfold section_adx.
  destruct (Qltb 0 strength); read_entry Hm "adx"; finish_section.
Qed.

Lemma section_head_total (day : string) (s : Signal) :
  exists msg, section_head day s = Ok msg.
Proof. unfold section_head. eexists. reflexivity. Qed.

Lemma format_message_formattable (day : string) (s : Signal) :
  formattable (indicators s) -> exists msg, format_message day (Some s) = Ok msg.
Proof.
  intros Hm. unfold format_message.
  destruct (section_head_total day s) as [m0 ->].
  destruct (section_ma_total _ Hm) as [m1 ->].
  destruct (section_crosses_total (indicators s)) as [m2 ->].
  destruct (section_rsi_total _ Hm) as [m3 ->].
  destruct (section_macd_total _ Hm) as [m4 ->].
  destruct (section_macd_crossover_total _ Hm) as [m5 ->].
  destruct (section_bollinger_total _ Hm) as [m6 ->].
  destruct (section_stochastic_total _ Hm) as [m7 ->].
  destruct (section_volume_total _ Hm) as [m8 ->].
  destruct (section_adx_total (signal_strength s) _ Hm) as [m9 ->].
  eexists. reflexivity.
Qed.

Lemma generate_signals_formattable (df : list Row) (sym : string) :
  df <> [] ->
  exists st,
    scored df sym = Ok st /\
    generate_signals (Some df) sym = Ok (Some (finish st)) /\
    formattable (indicators (finish st)).
Proof.
  intros Hne.
  destruct (last_rows_nonempty df Hne) as (previous & current & Hl).
  destruct (generate_signals_closed df sym previous current Hl)
    as (st & Hs & Hg & Hi & _).
  exists st. split; [exact Hs|]. split; [exact Hg|].
  simpl indicators. rewrite Hi. apply closed_entries_formattable.
Qed.

(** X10: the formatter never fails on what the scorer returns.  For an
    absent or empty frame the scorer returns None and the message is the
    "No signals available" warning; for every other frame it returns a
    Signal in which every entry has a str under 'signal' and the fields the
    formatter prints, and the formatter returns a message (no KeyError, no
    AttributeError). *)
Theorem format_message_of_generate_signals (df : option (list Row))
    (sym day : string) :
  exists o msg,
    generate_signals df sym = Ok o /\
    format_message day o = Ok msg /\
    (o = None <-> df = None \/ df = Some []) /\
    (o = None -> msg = [Lit "⚠️ No signals available"]) /\
    (forall s, o = Some s -> formattable (indicators s)).
Proof.
  destruct df as [[|r rows]|].
  - exists None. eexists. split; [reflexivity|]. split; [reflexivity|].
    split; [tauto|]. split; [reflexivity | discriminate].
  - destruct (generate_signals_formattable (r :: rows) sym)
      as (st & _ & Hg & Hf); [discriminate|].
    destruct (format_message_formattable day (finish st) Hf) as [msg Hmsg].
    exists (Some (finish st)), msg. split; [exact Hg|]. split; [exact Hmsg|].
    split; [split; [discriminate | intros [H | H]; discriminate]|].
    split; [discriminate|]. now intros s [= <-].
  - exists None. eexists. split; [reflexivity|]. split; [reflexivity|].
    split; [tauto|]. split; [reflexivity | discriminate].
Qed.

(** ** The strength gauge *)






(** ** The bot *)

Lemma get_stock_data_nonempty (W : World) (symbol period interval : string)
    (data : list Bar) :
  get_stock_data symbol period interval = Some data -> data <> [].
Proof.
  unfold get_stock_data.
  destruct (yf_download symbol period interval) as [[|b l]|e];
    try discriminate.
  intros [= <-]. discriminate.
Qed.

(** From a downloaded series to the text: only the library can fail. *)
Lemma pipeline_message (T : TaLib) (data : list Bar) (sym day : string) :
  data <> [] ->
  match indicator_columns data with
  | Ok _ =>
      exists s msg,
        (dwi <- calculate_technical_indicators (Some data) ;;
         generate_signals dwi sym) = Ok (Some s) /\
        symbol s = sym /\
        format_message day (Some s) = Ok msg
  | Raise e => calculate_technical_indicators (Some data) = Raise e
  end.
Proof.
  intros Hne. rewrite (engine_nonempty T data Hne).
  destruct (indicator_columns data) as [cs|e]; [|reflexivity].
  simpl bind.
  assert (Hdf : annotate_from cs 0 data <> []).
  { destruct data; [congruence | discriminate]. }
  destruct (last_rows_nonempty _ Hdf) as (previous & current & Hl).
  destruct (generate_signals_closed _ sym previous current Hl)
    as (st & _ & Hg & Hi & _ & _ & Hh).
  assert (Hf : formattable (indicators (finish st))).
  { simpl indicators. rewrite Hi. apply closed_entries_formattable. }
  destruct (format_message_formattable day (finish st) Hf) as [msg Hmsg].
  exists (finish st), msg. split; [exact Hg|]. split; [|exact Hmsg].
  unfold header in Hh. now injection Hh.
Qed.

Lemma send_telegram_message_log (W : World) (msg : message) (log : outbox) :
  exists ok,
    send_telegram_message msg log = (Ok ok, (log ++ [(msg, ok)])%list) /\
    (ok = true <-> exists u, bot_send_message (length log) msg = Ok u).
Proof.
  unfold send_telegram_message.
  destruct (bot_send_message (length log) msg) as [u|e].
  - exists true. split; [reflexivity|]. split; [now exists u | reflexivity].
  - exists false. split; [reflexivity|].
    split; [discriminate | intros [u [=]]].
Qed.

Lemma process_stock_no_data (W : World) (T : TaLib) (sym : string)
    (log : outbox) :
  get_stock_data sym "1y" "1d" = None ->
  exists ok,
    process_stock sym log = (Ok tt, (log ++ [(fetch_error sym, ok)])%list).
Proof.
  intros Hnone. unfold process_stock. rewrite Hnone.
  destruct (send_telegram_message_log W (fetch_error sym) log)
    as (ok & Hsend & _).
  exists ok. unfold bot_bind. now rewrite Hsend.
Qed.

Lemma process_stock_raises (W : World) (T : TaLib) (sym : string)
    (log : outbox) (data : list Bar) (e : exn) :
  get_stock_data sym "1y" "1d" = Some data ->
  indicator_columns data = Raise e ->
  process_stock sym log = (Raise e, log).
Proof.
  intros Hdata He.
  pose proof (get_stock_data_nonempty W _ _ _ data Hdata) as Hne.
  pose proof (pipeline_message T data sym today Hne) as Hpipe.
  rewrite He in Hpipe. unfold process_stock. rewrite Hdata.
  unfold bot_bind, lift. now rewrite Hpipe.
Qed.

Lemma process_stock_sends (W : World) (T : TaLib) (sym : string)
    (log : outbox) (data : list Bar) :
  get_stock_data sym "1y" "1d" = Some data ->
  library_accepts data ->
  exists s msg ok,
    (dwi <- calculate_technical_indicators (Some data) ;;
     generate_signals dwi sym) = Ok (Some s) /\
    symbol s = sym /\
    format_message today (Some s) = Ok msg /\
    process_stock sym log = (Ok tt, (log ++ [(msg, ok)])%list) /\
    (ok = true <-> exists u, bot_send_message (length log) msg = Ok u).
Proof.
  intros Hdata [cs Hcs].
  pose proof (get_stock_data_nonempty W _ _ _ data Hdata) as Hne.
  pose proof (pipeline_message T data sym today Hne) as Hpipe.
  rewrite Hcs in Hpipe. destruct Hpipe as (s & msg & Hs & Hsym & Hmsg).
  destruct (send_telegram_message_log W msg log) as (ok & Hsend & Hok).
  exists s, msg, ok. split; [exact Hs|]. split; [exact Hsym|].
  split; [exact Hmsg|]. split; [|exact Hok].
  unfold process_stock. rewrite Hdata. unfold bot_bind, lift.
  destruct (calculate_technical_indicators (Some data)) as [dwi|e];
    [|discriminate].
  simpl in Hs. rewrite Hs, Hmsg, Hsend. reflexivity.
Qed.

(** X12: process_stock makes exactly one call to the Telegram client, with
    the fetch-error text when the download failed or was empty and with the
    formatted Signal of the symbol otherwise, and returns whether or not the
    client delivered.  The one way it raises is an exception of the
    indicator library, and then nothing is sent for the symbol. *)
Theorem process_stock_outcome (W : World) (T : TaLib) (sym : string)
    (log : outbox) :
  (get_stock_data sym "1y" "1d" = None ->
     exists ok,
       process_stock sym log
         = (Ok tt, (log ++ [(fetch_error sym, ok)])%list)) /\
  (forall data, get_stock_data sym "1y" "1d" = Some data ->
     data <> [] /\
     (forall e, indicator_columns data = Raise e ->
        process_stock sym log = (Raise e, log)) /\
     (library_accepts data ->
        exists s msg ok,
          (dwi <- calculate_technical_indicators (Some data) ;;
           generate_signals dwi sym) = Ok (Some s) /\
          symbol s = sym /\
          format_message today (Some s) = Ok msg /\
          process_stock sym log = (Ok tt, (log ++ [(msg, ok)])%list) /\
          (ok = true <->
           exists u, bot_send_message (length log) msg = Ok u))).
Proof.
  split.
  - apply process_stock_no_data.
  - intros data Hdata. split; [|split].
    + exact (get_stock_data_nonempty W _ _ _ data Hdata).
    + intros e He. exact (process_stock_raises W T sym log data e Hdata He).
    + intros Hacc. exact (process_stock_sends W T sym log data Hdata Hacc).
Qed.

Lemma process_stock_outcome_witness :
  @get_stock_data example_world "MSFT" "1y" "1d" = None /\
  (exists data,
     @get_stock_data example_world "AAPL" "1y" "1d" = Some data /\
     @library_accepts no_history data /\
     @indicator_columns failing_library data = Raise IndexError) /\
  @process_stock example_world no_history "MSFT" []
    = (Ok tt, [(fetch_error "MSFT", true)]) /\
  (exists msg,
     @process_stock example_world no_history "AAPL" []
       = (Ok tt, [(msg, true)])) /\
  @process_stock example_world failing_library "AAPL" []
    = (Raise IndexError, []).
Proof.
  assert (Hnone : @get_stock_data example_world "MSFT" "1y" "1d" = None)
    by reflexivity.
  set (data := [flat_bar 1 10 100; flat_bar 2 11 400]).
  assert (Hdata : @get_stock_data example_world "AAPL" "1y" "1d" = Some data)
    by reflexivity.
  assert (Hacc : @library_accepts no_history data)
    by (eexists; reflexivity).
  assert (Hfail : @indicator_columns failing_library data = Raise IndexError)
    by reflexivity.
  split; [exact Hnone|].
  split; [exists data; repeat split; assumption|].
  split; [|split].
  - destruct (proj1 (process_stock_outcome example_world no_history "MSFT" [])
                Hnone) as [ok Hok].
    rewrite Hok. vm_compute in Hok. injection Hok as <-. reflexivity.
  - destruct (proj2 (process_stock_outcome example_world no_history "AAPL" [])
                data Hdata) as (_ & _ & Hsent).
    destruct (Hsent Hacc) as (s & msg & ok & _ & _ & _ & Hrun & Hok).
    exists msg. rewrite Hrun.
    assert (ok = true) as -> by (apply Hok; eexists; reflexivity).
    reflexivity.
  - destruct (proj2 (process_stock_outcome example_world failing_library
                       "AAPL" []) data Hdata) as (_ & Hraise & _).
    exact (Hraise IndexError Hfail).
Defined.

Lemma process_all_app (W : World) (T : TaLib) (before rest : list string)
    (log : outbox) :
  process_all (before ++ rest)%list log
  = match process_all before log with
    | (Ok _, log') => process_all rest log'
    | (Raise e, log') => (Raise e, log')
    end.
Proof.
  revert log. induction before as [|s before IH]; intros log; simpl.
  - reflexivity.
  - unfold bot_bind.
    destruct (process_stock s log) as [[u|e] log']; [apply IH | reflexivity].
Qed.


Lemma process_all_accepted (W : World) (T : TaLib) (symbols : list string) :
  library_accepts_all W T symbols ->
  forall log,
    exists sent,
      process_all symbols log = (Ok tt, (log ++ sent)%list) /\
      Forall2 (reports W T) symbols sent.
Proof.
  induction symbols as [|s rest IH]; intros Hacc log.
  - exists []. rewrite app_nil_r. split; [reflexivity | constructor].
  - assert (Hrest : library_accepts_all W T rest).
    { intros s' data Hin. apply Hacc. now right. }
    assert (Hone : exists entry,
               process_stock s log = (Ok tt, (log ++ [entry])%list) /\
               reports W T s entry).
    { unfold reports.
      destruct (get_stock_data s "1y" "1d") as [data|] eqn:E.
      - destruct (process_stock_sends W T s log data E
                    (Hacc s data (or_introl eq_refl) E))
          as (sg & msg & ok & Hs & Hsym & Hmsg & Hrun & _).
        exists (msg, ok). split; [exact Hrun|]. now exists sg.
      - destruct (process_stock_no_data W T s log E) as [ok Hrun].
        exists (fetch_error s, ok). split; [exact Hrun | reflexivity]. }
    destruct Hone as (entry & Hrun & Hrep).
    destruct (IH Hrest (log ++ [entry])%list) as (sent & Hall & Hreps).
    exists (entry :: sent). simpl. unfold bot_bind. rewrite Hrun, Hall.
    rewrite <- app_assoc. split; [reflexivity | now constructor].
Qed.

Lemma header_message_total (W : World) (watchlist : list string) :
  exists hdr, header_message watchlist = Ok hdr.
Proof. eexists. reflexivity. Qed.

Lemma summary_message_total (W : World) (watchlist : list string) :
  exists sm, summary_message watchlist = Ok sm.
Proof. eexists. reflexivity. Qed.

(** X13: when the library accepts every series the watchlist downloads,
    run_daily_analysis returns normally after exactly len(watchlist) + 2
    calls to the Telegram client: the header, then one message per symbol
    in the order of the watchlist (the formatted Signal, or the fetch-error
    text when the download failed or was empty), then the summary.  That
    the client fails to deliver, for any of them, changes nothing. *)
Theorem run_daily_analysis_messages (W : World) (T : TaLib)
    (watchlist : list string) (log : outbox) :
  library_accepts_all W T watchlist ->
  exists hdr sm ok1 ok2 sent,
    header_message watchlist = Ok hdr /\
    summary_message watchlist = Ok sm /\
    run_daily_analysis watchlist log
      = (Ok tt, (log ++ (hdr, ok1) :: sent ++ [(sm, ok2)])%list) /\
    Forall2 (reports W T) watchlist sent /\
    length sent = length watchlist.
Proof.
  intros Hacc.
  destruct (header_message_total W watchlist) as [hdr Hhdr].
  destruct (summary_message_total W watchlist) as [sm Hsm].
  destruct (send_telegram_message_log W hdr log) as (ok1 & Hsend1 & _).
  destruct (process_all_accepted W T watchlist Hacc (log ++ [(hdr, ok1)])%list)
    as (sent & Hall & Hreps).
  destruct (send_telegram_message_log W sm
              ((log ++ [(hdr, ok1)]) ++ sent)%list) as (ok2 & Hsend2 & _).
  exists hdr, sm, ok1, ok2, sent.
  split; [exact Hhdr|]. split; [exact Hsm|]. split; [|split].
  - unfold run_daily_analysis, bot_bind, lift, bot_ret.
    rewrite Hhdr, Hsend1, Hall, Hsm, Hsend2.
    now rewrite <- !app_assoc.
  - exact Hreps.
  - symmetry. exact (Forall2_length Hreps).
Qed.

Lemma run_daily_analysis_messages_witness :
  library_accepts_all example_world no_history ["AAPL"; "MSFT"; "XX"] /\
  exists outbox,
    @run_daily_analysis example_world no_history ["AAPL"; "MSFT"; "XX"] []
      = (Ok tt, outbox) /\
    length outbox = 5%nat.
Proof.
  assert (Hacc : library_accepts_all example_world no_history
                   ["AAPL"; "MSFT"; "XX"]).
  { intros s data _ _. eexists. reflexivity. }
  split; [exact Hacc|].
  destruct (run_daily_analysis_messages example_world no_history
              ["AAPL"; "MSFT"; "XX"] [] Hacc)
    as (hdr & sm & ok1 & ok2 & sent & _ & _ & Hrun & _ & Hlen).
  eexists. split; [exact Hrun|].
  simpl. rewrite length_app, Hlen. reflexivity.
Defined.

(** X14: a failure of the indicator library is not contained.  When the
    library raises on the series of one symbol, run_daily_analysis raises
    the same exception: the header and the messages of the symbols before
    it have been sent, nothing is sent for that symbol or for any symbol
    after it, and the summary is not sent. *)
Theorem run_daily_analysis_aborts (W : World) (T : TaLib)
    (before after : list string) (sym : string) (data : list Bar) (e : exn)
    (log : outbox) :
  library_accepts_all W T before ->
  get_stock_data sym "1y" "1d" = Some data ->
  indicator_columns data = Raise e ->
  exists hdr ok sent,
    header_message (before ++ sym :: after)%list = Ok hdr /\
    run_daily_analysis (before ++ sym :: after)%list log
      = (Raise e, (log ++ (hdr, ok) :: sent)%list) /\
    Forall2 (reports W T) before sent.
Proof.
  intros Hacc Hdata He.
  destruct (header_message_total W (before ++ sym :: after)%list)
    as [hdr Hhdr].
  destruct (send_telegram_message_log W hdr log) as (ok & Hsend & _).
  destruct (process_all_accepted W T before Hacc (log ++ [(hdr, ok)])%list)
    as (sent & Hall & Hreps).
  exists hdr, ok, sent. split; [exact Hhdr|]. split; [|exact Hreps].
  unfold run_daily_analysis, bot_bind, lift.
  rewrite Hhdr, Hsend, process_all_app, Hall. simpl process_all.
  unfold bot_bind.
  rewrite (process_stock_raises W T sym _ data e Hdata He).
  now rewrite <- app_assoc.
Qed.

Lemma run_daily_analysis_aborts_witness :
  library_accepts_all example_world failing_library ["MSFT"] /\
  (exists data,
     @get_stock_data example_world "AAPL" "1y" "1d" = Some data /\
     @indicator_columns failing_library data = Raise IndexError) /\
  exists outbox,
    @run_daily_analysis example_world failing_library
       ["MSFT"; "AAPL"; "XX"] []
      = (Raise IndexError, outbox) /\
    length outbox = 2%nat.
Proof.
  assert (Hacc : library_accepts_all example_world failing_library ["MSFT"]).
  { intros s data [<- | []] H. discriminate. }
  set (data := [flat_bar 1 10 100; flat_bar 2 11 400]).
  assert (Hdata : @get_stock_data example_world "AAPL" "1y" "1d" = Some data)
    by reflexivity.
  assert (Hfail : @indicator_columns failing_library data = Raise IndexError)
    by reflexivity.
  split; [exact Hacc|]. split; [now exists data|].
  destruct (run_daily_analysis_aborts example_world failing_library
              ["MSFT"] ["XX"] "AAPL" data IndexError [] Hacc Hdata Hfail)
    as (hdr & ok & sent & _ & Hrun & Hreps).
  eexists. split; [exact Hrun|].
  simpl. rewrite <- (Forall2_length Hreps). reflexivity.
Defined.
